(** * Auth.js: the login / signup form component

    A shallow embedding of [src/components/Auth/Auth.js] and the properties
    of its validator and of its four authentication handlers.

    - JavaScript strings are sequences of UTF-16 code units ([list N]).
    - The object [errors] built by [validateForm] and the browser's
      [localStorage] are finite maps from property names to strings.
    - The handlers run in a state-and-exception monad over a [World] that
      holds the component's [useState] cells, [localStorage], the [auth]
      slice of the Redux store, the identity provider, and a chronological
      trace of the calls made on the collaborators (provider, dispatch,
      router, console).  An [await] is modelled as running the awaited call
      to completion: a resolved promise is a normal completion, a rejected
      one a throw.
    - What is thrown is any value, [undefined] and [null] included, and
      [localStorage.setItem] throws when the browser refuses the write. *)

From stdpp Require Import gmap strings list fin_maps.
From Stdlib Require Import NArith Ascii String.

Local Open Scope N_scope.

(* ===================================================================== *)
(** ** JavaScript strings *)
(* ===================================================================== *)

Module JS.

(** A string value is a finite sequence of 16-bit code units. *)
Abbreviation jsstring := (list N).

(** The code units of an ASCII string literal of the source. *)
Definition lit (s : string) : jsstring :=
  List.map N_of_ascii (list_ascii_of_string s).
Arguments lit : simpl never.

(** [ToBoolean] on a string: the empty string is the only falsy one. *)
Definition truthy (s : jsstring) : bool :=
  match s with
  | [] => false
  | _ :: _ => true
  end.

(** [s.length] *)
Definition strlen (s : jsstring) : N := N.of_nat (List.length s).

(** ECMAScript's WhiteSpace production: TAB, VT, FF, ZWNBSP and the
    Unicode category Zs. *)
Definition isWhiteSpace (c : N) : bool :=
  (c =? 0x0009) || (c =? 0x000B) || (c =? 0x000C) || (c =? 0xFEFF)
  || (c =? 0x0020) || (c =? 0x00A0) || (c =? 0x1680)
  || ((0x2000 <=? c) && (c <=? 0x200A))
  || (c =? 0x202F) || (c =? 0x205F) || (c =? 0x3000).

(** ECMAScript's LineTerminator production: LF, CR, LS, PS. *)
Definition isLineTerminator (c : N) : bool :=
  (c =? 0x000A) || (c =? 0x000D) || (c =? 0x2028) || (c =? 0x2029).

(** The character class [\s]. *)
Definition isSpace (c : N) : bool := isWhiteSpace c || isLineTerminator c.

End JS.
Export JS.

(* ===================================================================== *)
(** ** Regular expressions of the shape used by the validator *)
(* ===================================================================== *)

Module RegExp.

(** A one-character matcher: the class escape [\S] or a literal character
    (written as itself, as [@], or identity-escaped, as [\.]). *)
Inductive charclass : Type :=
  | NotSpace
  | Char (c : N).

Definition class_mem (cl : charclass) (c : N) : bool :=
  match cl with
  | NotSpace => negb (isSpace c)
  | Char d => c =? d
  end.

(** A term is an atom, alone or under the greedy quantifier [+]. *)
Inductive term : Type :=
  | Once (cl : charclass)
  | OneOrMore (cl : charclass).

Abbreviation pattern := (list term).

(** *** The backtracking matcher

    Matchers take the rest of the input and a continuation, as in the
    semantics of ECMAScript patterns.  [repeatMatcher] is the loop of a
    greedy quantifier once its minimum has been met: it first tries one
    more iteration, and falls back to the continuation. *)
Fixpoint repeatMatcher (cl : charclass) (k : jsstring -> bool) (s : jsstring) : bool :=
  match s with
  | [] => k []
  | c :: s' => (class_mem cl c && repeatMatcher cl k s') || k s
  end.

Definition termMatcher (t : term) (k : jsstring -> bool) (s : jsstring) : bool :=
  match t, s with
  | _, [] => false
  | Once cl, c :: s' => class_mem cl c && k s'
  | OneOrMore cl, c :: s' => class_mem cl c && repeatMatcher cl k s'
  end.

Fixpoint patternMatcher (p : pattern) (k : jsstring -> bool) : jsstring -> bool :=
  match p with
  | [] => k
  | t :: p' => termMatcher t (patternMatcher p' k)
  end.

(** A match attempt anchored at the start of [s]. *)
Definition matchHere (p : pattern) (s : jsstring) : bool :=
  patternMatcher p (fun _ => true) s.

(** [RegExp.prototype.test] for a pattern without flags: the match is
    attempted at index 0, then 1, ... up to the length of the string. *)
Fixpoint test (p : pattern) (s : jsstring) : bool :=
  matchHere p s ||
  match s with
  | [] => false
  | _ :: s' => test p s'
  end.

(** *** The language of a pattern *)

Definition term_lang (t : term) (w : jsstring) : Prop :=
  match t with
  | Once cl => exists c, w = [c] /\ class_mem cl c = true
  | OneOrMore cl => w <> [] /\ Forall (fun c => class_mem cl c = true) w
  end.

Fixpoint pattern_lang (p : pattern) (w : jsstring) : Prop :=
  match p with
  | [] => w = []
  | t :: p' => exists w1 w2, w = w1 ++ w2 /\ term_lang t w1 /\ pattern_lang p' w2
  end.

(** [s] matches [p] in the sense of [test]: some substring of [s] is in the
    language of [p]. *)
Definition contains_match (p : pattern) (s : jsstring) : Prop :=
  exists pre w post, s = pre ++ w ++ post /\ pattern_lang p w.

End RegExp.
Export RegExp.

(* ===================================================================== *)
(** ** The validator *)
(* ===================================================================== *)

(** [useState({ name: "", email: "", password: "" })] *)
Record FormFields : Type := mkFormFields {
  name : jsstring;
  email : jsstring;
  password : jsstring
}.

(** The literal [/\S+@\S+\.\S+/]. *)
Definition EMAIL_RE : pattern :=
  [ OneOrMore NotSpace; Once (Char 0x40); OneOrMore NotSpace;
    Once (Char 0x2E); OneOrMore NotSpace ].

(** A run of code units none of which [\s] matches. *)
Definition nonspace_run (w : jsstring) : Prop :=
  w <> [] /\ Forall (fun c => isSpace c = false) w.

(** The object [errors] at the end of [validateForm], before it is stored:
    the three [if] statements of the source in order. *)
Definition validateForm_errors (isLogin : bool) (authData : FormFields)
  : gmap string jsstring :=
  let errors : gmap string jsstring := ∅ in
  let errors :=
    if negb (truthy (email authData)) then
      <["email" := lit "Email is required."]> errors
    else if negb (test EMAIL_RE (email authData)) then
      <["email" := lit "Email is invalid."]> errors
    else errors in
  let errors :=
    if negb (truthy (password authData)) then
      <["password" := lit "Password is required."]> errors
    else if strlen (password authData) <? 6 then
      <["password" := lit "Password must be at least 6 characters."]> errors
    else errors in
  let errors :=
    if negb isLogin && negb (truthy (name authData)) then
      <["name" := lit "Full name is required for signup."]> errors
    else errors in
  errors.

(** [Object.keys(errors).length === 0] *)
Definition no_keys (errors : gmap string jsstring) : bool :=
  Nat.eqb (size errors) 0.

(* ===================================================================== *)
(** ** Collaborators: provider, store, storage, router, console *)
(* ===================================================================== *)

(** An error object: an [Error], a [FirebaseError], a [DOMException];
    the handlers only ever read its [message]. *)
Record Error : Type := mkError { message : jsstring }.

(** What a [throw] or a rejected promise carries.  Any value can be
    thrown; the handlers tell three kinds apart by what reading
    [error.message] does: it gives a string for an error object, it throws
    a TypeError for [undefined] and [null], and it gives something that is
    not a string ([undefined], mostly) for every other value. *)
Inductive thrown : Type :=
  | Object (e : Error)
  | Nullish
  | NoMessage.
Coercion Object : Error >-> thrown.

(** How a call ends: normally with a value (a resolved promise, once
    awaited) or abruptly with a thrown value (a rejected one). *)
Inductive completion (A : Type) : Type :=
  | Normal (a : A)
  | Throw (v : thrown).
Arguments Normal {A} a.
Arguments Throw {A} v.

(** The response of [signInUserEmailAndPass]: [{ user: { accessToken } }]. *)
Record User : Type := mkUser { accessToken : jsstring }.
Record UserCredential : Type := mkUserCredential { user : User }.

(** The result of [signInWithGoogle]: [{ token }]. *)
Record GoogleResult : Type := mkGoogleResult { token : jsstring }.

(** The identity provider ([../../firebase/auth]) is external: any state
    type with the four fallible operations the component imports. *)
Class IdentityProvider (P : Type) : Type := {
  provider_signIn : jsstring -> jsstring -> P -> completion UserCredential * P;
  provider_create : jsstring -> jsstring -> P -> completion unit * P;
  provider_google : P -> completion GoogleResult * P;
  provider_signOut : P -> completion unit * P
}.

(** The actions of the [auth] slice that the component dispatches. *)
Inductive Action : Type :=
  | setIsLogin (b : bool)
  | setIdToken (t : option jsstring)
  | setLoginStatus.

(** [state.auth]: the mode flag, the token ([None] is [null]) and the
    login status. *)
Record AuthSlice : Type := mkAuthSlice {
  auth_isLogin : bool;
  idToken : option jsstring;
  loginStatus : bool
}.

(** Modelled from the spec: the reducers of [store/authSlice], which is not
    among the sources.  [setIsLogin] and [setIdToken] store their payload;
    [setLoginStatus], which takes no payload, refreshes the status from the
    token now in the store: logged in exactly when a token is held. *)
Definition authReducer (s : AuthSlice) (a : Action) : AuthSlice :=
  match a with
  | setIsLogin b =>
      {| auth_isLogin := b; idToken := idToken s; loginStatus := loginStatus s |}
  | setIdToken t =>
      {| auth_isLogin := auth_isLogin s; idToken := t; loginStatus := loginStatus s |}
  | setLoginStatus =>
      {| auth_isLogin := auth_isLogin s; idToken := idToken s;
         loginStatus := bool_decide (is_Some (idToken s)) |}
  end.

Inductive ProviderOp : Type :=
  | SignInEmailAndPass (email password : jsstring)
  | CreateEmailAndPass (email password : jsstring)
  | SignInGoogle
  | SignOut.

(** The calls the component makes on its collaborators. *)
Inductive Event : Type :=
  | PreventDefault
  | ProviderCall (op : ProviderOp)
  | Dispatch (a : Action)
  | Navigate (path : jsstring)
  | ConsoleError (label msg : jsstring)
  | ConsoleErrorOther (label : jsstring).   (* the second argument is no string *)

Definition is_navigation (e : Event) : bool :=
  match e with
  | Navigate _ => true
  | _ => false
  end.

(** What the component meets of the browser.  [setItem_refused items key
    value] tells how [localStorage.setItem(key, value)] ends on a store
    holding [items]: [None] when the value is set, [Some e] when it could
    not be (the quota is exceeded, storage is disabled) and the
    DOMException [e] is thrown.  [nullish_TypeError] is the TypeError the
    engine throws when a property of [undefined] or [null] is read. *)
Record Browser : Type := mkBrowser {
  setItem_refused : gmap string jsstring -> string -> jsstring -> option Error;
  nullish_TypeError : Error
}.

Record World (P : Type) : Type := mkWorld {
  browser : Browser;
  st_authData : FormFields;                (* useState: authData *)
  st_formErrors : gmap string jsstring;    (* useState: formErrors *)
  localStorage : gmap string jsstring;
  store : AuthSlice;                       (* state.auth *)
  idp : P;
  trace : list Event                       (* oldest call first *)
}.
Arguments mkWorld {P}.
Arguments browser {P}.
Arguments st_authData {P}.
Arguments st_formErrors {P}.
Arguments localStorage {P}.
Arguments store {P}.
Arguments idp {P}.
Arguments trace {P}.

(** What one render of the component closes over: the handlers read
    [isLogin] and [authData] from the render that created them. *)
Record Render : Type := mkRender {
  isLogin : bool;
  authData : FormFields
}.

Definition render {P} (w : World P) : Render :=
  {| isLogin := auth_isLogin (store w); authData := st_authData w |}.

(* ===================================================================== *)
(** ** The monad of the handlers *)
(* ===================================================================== *)

Section Handlers.

Context {P : Type} `{IdentityProvider P}.

Definition M (A : Type) : Type := World P -> completion A * World P.

Definition ret {A} (a : A) : M A := fun w => (Normal a, w).

Definition bind {A B} (m : M A) (k : A -> M B) : M B :=
  fun w =>
    match m w with
    | (Normal a, w') => k a w'
    | (Throw e, w') => (Throw e, w')
    end.

(** [try { body } catch (error) { handler }] *)
Definition try_catch {A} (body : M A) (handler : thrown -> M A) : M A :=
  fun w =>
    match body w with
    | (Normal a, w') => (Normal a, w')
    | (Throw e, w') => handler e w'
    end.

#[global] Instance M_ret : MRet M := @ret.
#[global] Instance M_bind : MBind M := fun A B k m => bind m k.

Definition emit (e : Event) : M unit :=
  fun w =>
    (Normal tt,
     mkWorld (browser w) (st_authData w) (st_formErrors w) (localStorage w) (store w)
             (idp w) (trace w ++ [e])).

(** *** React state *)

Definition setFormErrors (errors : gmap string jsstring) : M unit :=
  fun w =>
    (Normal tt,
     mkWorld (browser w) (st_authData w) errors (localStorage w) (store w)
             (idp w) (trace w)).

Definition setAuthData (d : FormFields) : M unit :=
  fun w =>
    (Normal tt,
     mkWorld (browser w) d (st_formErrors w) (localStorage w) (store w) (idp w)
             (trace w)).

(** *** Web storage *)

Definition localStorage_setItem (key : string) (value : jsstring) : M unit :=
  fun w =>
    match setItem_refused (browser w) (localStorage w) key value with
    | None =>
        (Normal tt,
         mkWorld (browser w) (st_authData w) (st_formErrors w)
                 (<[key := value]> (localStorage w)) (store w) (idp w) (trace w))
    | Some e => (Throw e, w)
    end.

Definition localStorage_removeItem (key : string) : M unit :=
  fun w =>
    (Normal tt,
     mkWorld (browser w) (st_authData w) (st_formErrors w) (delete key (localStorage w))
             (store w) (idp w) (trace w)).

(** *** Redux, router, console *)

Definition dispatch (a : Action) : M unit :=
  fun w =>
    (Normal tt,
     mkWorld (browser w) (st_authData w) (st_formErrors w) (localStorage w)
             (authReducer (store w) a) (idp w) (trace w ++ [Dispatch a])).

Definition navigate (path : jsstring) : M unit := emit (Navigate path).

(** [error.message], for a caught [error]. *)
Definition read_message (error : thrown) : M (option jsstring) :=
  fun w =>
    match error with
    | Object e => (Normal (Some (message e)), w)
    | NoMessage => (Normal None, w)
    | Nullish => (Throw (nullish_TypeError (browser w)), w)
    end.

(** [console.error(label, arg)], [arg] a string or not. *)
Definition console_error (label : jsstring) (arg : option jsstring) : M unit :=
  emit match arg with
       | Some msg => ConsoleError label msg
       | None => ConsoleErrorOther label
       end.

(** *** Awaited provider calls *)

Definition call_provider {A} (op : ProviderOp)
    (f : P -> completion A * P) : M A :=
  fun w =>
    let '(r, p') := f (idp w) in
    (r,
     mkWorld (browser w) (st_authData w) (st_formErrors w) (localStorage w) (store w)
             p' (trace w ++ [ProviderCall op])).

Definition signInUserEmailAndPass (email password : jsstring) : M UserCredential :=
  call_provider (SignInEmailAndPass email password) (provider_signIn email password).

Definition createUserEmailAndPass (email password : jsstring) : M unit :=
  call_provider (CreateEmailAndPass email password) (provider_create email password).

Definition signInWithGoogle : M GoogleResult :=
  call_provider SignInGoogle provider_google.

Definition signOutUser : M unit :=
  call_provider SignOut provider_signOut.

(* ===================================================================== *)
(** ** The handlers of the component *)
(* ===================================================================== *)

Definition loginHandler (email password : jsstring) : M unit :=
  response ← signInUserEmailAndPass email password;
  let token := accessToken (user response) in
  localStorage_setItem "idToken" token ;;
  dispatch (setIdToken (Some token)) ;;
  dispatch setLoginStatus ;;
  navigate (lit "/home").

(** The three [<input name=...>] elements of the form. *)
Inductive InputName : Type := input_name | input_email | input_password.

(** [setAuthData({ ...authData, [name]: value })] *)
Definition handleChange (r : Render) (target : InputName) (value : jsstring) : M unit :=
  setAuthData
    match target with
    | input_name =>
        mkFormFields value (email (authData r)) (password (authData r))
    | input_email =>
        mkFormFields (name (authData r)) value (password (authData r))
    | input_password =>
        mkFormFields (name (authData r)) (email (authData r)) value
    end.

Definition validateForm (r : Render) : M bool :=
  let errors := validateForm_errors (isLogin r) (authData r) in
  setFormErrors errors ;;
  ret (no_keys errors).

Definition handleSubmit (r : Render) : M unit :=
  emit PreventDefault ;;
  valid ← validateForm r;
  if negb valid then ret tt
  else
    let email := email (authData r) in
    let password := password (authData r) in
    try_catch
      ((if isLogin r then
          loginHandler email password
        else
          createUserEmailAndPass email password ;;
          loginHandler email password) ;;
       dispatch (setIsLogin true))
      (fun error =>
         msg ← read_message error;
         console_error (lit "Authentication error:") msg).

Definition toggleAuthMode (r : Render) : M unit :=
  dispatch (setIsLogin (negb (isLogin r))).

Definition loginWithGoogleHandler : M unit :=
  try_catch
    (result ← signInWithGoogle;
     let token := token result in
     localStorage_setItem "idToken" token ;;
     dispatch (setIdToken (Some token)) ;;
     dispatch setLoginStatus)
    (fun error =>
       msg ← read_message error;
       console_error (lit "Google Sign-In Error:") msg).

Definition handleSignOut : M unit :=
  try_catch
    (signOutUser ;;
     localStorage_removeItem "idToken" ;;
     dispatch (setIdToken None) ;;
     dispatch setLoginStatus)
    (fun error =>
       msg ← read_message error;
       console_error (lit "Sign out error:") msg).

End Handlers.

(* ===================================================================== *)
(** ** A concrete identity provider *)
(* ===================================================================== *)

(** A small in-memory provider used to run the handlers on concrete
    inputs: a list of registered accounts and a network switch.  Every
    operation is rejected while the network is down. *)
Module Demo.

Record Directory : Type := mkDirectory {
  accounts : list (jsstring * jsstring);
  online : bool
}.

Definition network_error : Error := mkError (lit "auth/network-request-failed").

Definition registered (e : jsstring) (d : Directory) : bool :=
  bool_decide (e ∈ (accounts d).*1).

Definition demo_signIn (e pw : jsstring) (d : Directory)
  : completion UserCredential * Directory :=
  if negb (online d) then (Throw network_error, d)
  else if bool_decide ((e, pw) ∈ accounts d) then
    (Normal (mkUserCredential (mkUser (lit "token:" ++ e))), d)
  else (Throw (mkError (lit "auth/invalid-credential")), d).

Definition demo_create (e pw : jsstring) (d : Directory)
  : completion unit * Directory :=
  if negb (online d) then (Throw network_error, d)
  else if registered e d then
    (Throw (mkError (lit "auth/email-already-in-use")), d)
  else (Normal tt, mkDirectory ((e, pw) :: accounts d) (online d)).

Definition demo_google (d : Directory) : completion GoogleResult * Directory :=
  if negb (online d) then (Throw network_error, d)
  else (Normal (mkGoogleResult (lit "google-token")), d).

Definition demo_signOut (d : Directory) : completion unit * Directory :=
  if negb (online d) then (Throw network_error, d) else (Normal tt, d).

#[export] Instance demo_provider : IdentityProvider Directory := {
  provider_signIn := demo_signIn;
  provider_create := demo_create;
  provider_google := demo_google;
  provider_signOut := demo_signOut
}.

(** The size of what a store holds: the code units of its keys and
    values. *)
Definition storage_size (items : gmap string jsstring) : N :=
  map_fold (fun key value size => size + N.of_nat (String.length key) + strlen value)
           0 items.

(** A browser that gives the origin [limit] code units of storage. *)
Definition quota_browser (limit : N) : Browser :=
  {| setItem_refused := fun items key value =>
       if storage_size (<[key := value]> items) <=? limit then None
       else Some (mkError (lit "The quota has been exceeded."));
     nullish_TypeError :=
       mkError (lit "Cannot read properties of undefined (reading 'message')") |}.

Definition roomy : Browser := quota_browser 5000000.

(** The store and the form as the component first mounts, in login mode
    or in signup mode. *)
Definition fresh (mode : bool) (d : FormFields) (dir : Directory) : World Directory :=
  mkWorld roomy d ∅ ∅ (mkAuthSlice mode None false) dir [].

Definition blank : FormFields := mkFormFields [] [] [].

Definition ada : FormFields :=
  mkFormFields (lit "Ada") (lit "ada@example.org") (lit "abcdef").

Definition ada_registered : Directory :=
  mkDirectory [(lit "ada@example.org", lit "abcdef")] true.

Definition nobody : Directory := mkDirectory [] true.


(** The form of the spec's failing example, submitted in signup mode. *)
Definition bad_form : FormFields := mkFormFields [] (lit "bad") (lit "12345").


End Demo.

(** What it means for the provider calls of a submission to all succeed
    and yield the sign-in response [resp]: the sign-in in login mode; the
    account creation and then the sign-in, on the provider state the
    creation left, in signup mode. *)
Definition submit_calls_yield {P} `{IdentityProvider P} (r : Render) (p : P)
    (resp : UserCredential) : Prop :=
  let e := email (authData r) in
  let pw := password (authData r) in
  if isLogin r then
    exists p', provider_signIn e pw p = (Normal resp, p')
  else
    exists p1 p2,
      provider_create e pw p = (Normal tt, p1) /\
      provider_signIn e pw p1 = (Normal resp, p2).

(** The browser sets [value] under "idToken" in the store of [w]. *)
Definition token_accepted {P} (w : World P) (value : jsstring) : Prop :=
  setItem_refused (browser w) (localStorage w) "idToken" value = None.

(* ===================================================================== *)
(** ** Worlds the handlers lead to *)
(* ===================================================================== *)

Section Outcomes.

Context {P : Type} `{IdentityProvider P}.

(** The world once [loginHandler] has run on a resolved sign-in. *)
Definition logged_in (w : World P) (email password : jsstring)
    (resp : UserCredential) (p' : P) : World P :=
  let T := accessToken (user resp) in
  mkWorld (browser w) (st_authData w) (st_formErrors w)
          (<["idToken" := T]> (localStorage w))
          (authReducer (authReducer (store w) (setIdToken (Some T))) setLoginStatus)
          p'
          (trace w ++ [ ProviderCall (SignInEmailAndPass email password);
                        Dispatch (setIdToken (Some T));
                        Dispatch setLoginStatus;
                        Navigate (lit "/home") ]).

(** The world [handleSubmit] hands to its branch: [preventDefault] has
    been called and the errors stored. *)
Definition validated (r : Render) (w : World P) : World P :=
  mkWorld (browser w) (st_authData w) (validateForm_errors (isLogin r) (authData r))
          (localStorage w) (store w) (idp w) (trace w ++ [PreventDefault]).

(** The world once an awaited [createUserEmailAndPass] has resolved. *)
Definition created (w : World P) (email password : jsstring) (p' : P) : World P :=
  mkWorld (browser w) (st_authData w) (st_formErrors w) (localStorage w) (store w) p'
          (trace w ++ [ProviderCall (CreateEmailAndPass email password)]).

(** The world once an awaited [signInUserEmailAndPass] has returned and
    nothing else was done. *)
Definition signIn_returned (w : World P) (email password : jsstring) (p' : P) : World P :=
  mkWorld (browser w) (st_authData w) (st_formErrors w) (localStorage w)
          (store w) p'
          (trace w ++ [ProviderCall (SignInEmailAndPass email password)]).

End Outcomes.

(* ===================================================================== *)
(** ** The form as a whole: fields, rendering, sequences of calls *)
(* ===================================================================== *)

(** [authData[target]], for the three inputs of the form. *)
Definition field (target : InputName) (d : FormFields) : jsstring :=
  match target with
  | input_name => name d
  | input_email => email d
  | input_password => password d
  end.

(** [formErrors.k && <p>{formErrors.k}</p>]: the paragraph is rendered
    when the entry exists and is a non-empty string. *)
Definition error_paragraph (formErrors : gmap string jsstring) (k : string)
  : option jsstring :=
  match formErrors !! k with
  | Some msg => if truthy msg then Some msg else None
  | None => None
  end.

(** The parts of the returned element that depend on state: the heading,
    each input's value with the error paragraph under it (the whole name
    block is there only when [!isLogin]), and the labels of the submit and
    toggle buttons. *)
Record View : Type := mkView {
  heading : jsstring;
  name_block : option (jsstring * option jsstring);
  email_block : jsstring * option jsstring;
  password_block : jsstring * option jsstring;
  submit_label : jsstring;
  toggle_label : jsstring
}.

(** The calls that can be made on the component's handlers: the four
    attached to the form (input change, submit, the Google button, the
    toggle button) and [handleSignOut], which the component defines
    without attaching it to an element. *)
Inductive Op : Type :=
  | OpChange (target : InputName) (value : jsstring)
  | OpSubmit
  | OpGoogle
  | OpToggle
  | OpSignOut.

Section Sessions.

Context {P : Type} `{IdentityProvider P}.

(** The element [Auth] returns, for the state a render reads. *)
Definition Auth (w : World P) : View :=
  let isLogin := auth_isLogin (store w) in
  let authData := st_authData w in
  let formErrors := st_formErrors w in
  {| heading := if isLogin then lit "Login" else lit "Signup";
     name_block :=
       if negb isLogin
       then Some (name authData, error_paragraph formErrors "name")
       else None;
     email_block := (email authData, error_paragraph formErrors "email");
     password_block := (password authData, error_paragraph formErrors "password");
     submit_label := if isLogin then lit "Login" else lit "Signup";
     toggle_label :=
       if isLogin then lit "Don't Have an Account? Signup"
       else lit "Already Have an Account? Login" |}.

(** One call, made on the handlers of the render of the current state. *)
Definition run_op (op : Op) (w : World P) : completion unit * World P :=
  match op with
  | OpChange target value => handleChange (render w) target value w
  | OpSubmit => handleSubmit (render w) w
  | OpGoogle => loginWithGoogleHandler w
  | OpToggle => toggleAuthMode (render w) w
  | OpSignOut => handleSignOut w
  end.

(** A sequence of calls, each on the state the previous one left. *)
Fixpoint run_ops (ops : list Op) (w : World P) : World P :=
  match ops with
  | [] => w
  | op :: ops' => run_ops ops' (run_op op w).2
  end.

(** The two copies of the token agree: [localStorage] holds under
    "idToken" what the store holds, and nothing when the store holds
    [null]. *)
Definition token_consistent (w : World P) : Prop :=
  localStorage w !! "idToken" = idToken (store w).

(** The calls made between two states of the world. *)
Definition calls_between (w w' : World P) (calls : list Event) : Prop :=
  trace w' = trace w ++ calls.

End Sessions.

(** More inputs for the in-memory provider. *)
Module Scenarios.

Import Demo.


(** Ada's form with another full name. *)
Definition ada_renamed : FormFields :=
  mkFormFields (lit "Countess of Lovelace") (lit "ada@example.org") (lit "abcdef").


(** A provider whose network goes down after a number of calls: the
    in-memory provider with a budget of calls left. *)
Definition budgeted {A} (f : Directory -> completion A * Directory)
    (s : nat * Directory) : completion A * (nat * Directory) :=
  match s with
  | (O, d) => (Throw network_error, (O, d))
  | (S n, d) => let '(r, d') := f d in (r, (n, d'))
  end.

#[export] Instance flaky_provider : IdentityProvider (nat * Directory) := {
  provider_signIn := fun e pw => budgeted (demo_signIn e pw);
  provider_create := fun e pw => budgeted (demo_create e pw);
  provider_google := budgeted demo_google;
  provider_signOut := budgeted demo_signOut
}.


(** A browser whose quota has no room for a token: the key "idToken"
    alone takes 7 of its 8 code units. *)
Definition cramped : Browser := quota_browser 8.

(** The same world in another browser. *)
Definition in_browser {P} (b : Browser) (w : World P) : World P :=
  mkWorld b (st_authData w) (st_formErrors w) (localStorage w) (store w)
          (idp w) (trace w).

(** A provider that rejects every call with [undefined]. *)
#[export] Instance silent_provider : IdentityProvider unit := {
  provider_signIn := fun _ _ p => (Throw Nullish, p);
  provider_create := fun _ _ p => (Throw Nullish, p);
  provider_google := fun p => (Throw Nullish, p);
  provider_signOut := fun p => (Throw Nullish, p)
}.

(** A signed-in session over the silent provider. *)
Definition signed_in_silent : World unit :=
  mkWorld roomy ada ∅ {["idToken" := lit "T123"]}
          (mkAuthSlice true (Some (lit "T123")) true) tt [].

End Scenarios.

(** Unfolds one layer of the monad and evaluates what is then decided. *)
Ltac step_monad :=
  unfold mbind, M_bind, mret, M_ret, bind, ret, try_catch,
    navigate, read_message, console_error, emit, dispatch,
    localStorage_setItem, localStorage_removeItem, setFormErrors;
  cbn [browser st_authData st_formErrors localStorage store idp trace fst snd].

(* ===================================================================== *)
(** * Properties *)
(* ===================================================================== *)

(** ** The matcher decides the language of the pattern *)

Section MatcherCorrect.

Implicit Types (cl : charclass) (t : term) (p : pattern) (s w : jsstring).
Implicit Type k : jsstring -> bool.

Lemma repeatMatcher_spec cl k s :
  repeatMatcher cl k s = true <->
  exists w rest,
    s = w ++ rest /\ Forall (fun c => class_mem cl c = true) w /\ k rest = true.
Proof.
  induction s as [|c s IH]; simpl.
  - split.
    + intros Hk. exists [], []. auto.
    + intros (w & rest & Hs & _ & Hk).
      symmetry in Hs. apply app_eq_nil in Hs as [_ ->]. exact Hk.
  - rewrite orb_true_iff, andb_true_iff, IH. split.
    + intros [[Hc (w & rest & -> & Hw & Hk)] | Hk].
      * exists (c :: w), rest. auto.
      * exists [], (c :: s). auto.
    + intros (w & rest & Hs & Hw & Hk). destruct w as [|c' w].
      * right. simpl in Hs. now subst rest.
      * left. simpl in Hs. injection Hs as <- ->.
        apply Forall_cons in Hw as [Hc Hw]. eauto 6.
Qed.

Lemma termMatcher_spec t k s :
  termMatcher t k s = true <->
  exists w rest, s = w ++ rest /\ term_lang t w /\ k rest = true.
Proof.
  destruct t as [cl|cl], s as [|c s]; simpl.
  - split; [discriminate|].
    intros (w & rest & Hs & (c & -> & _) & _). discriminate.
  - rewrite andb_true_iff. split.
    + intros [Hc Hk]. exists [c], s. eauto.
    + intros (w & rest & Hs & (c' & -> & Hc) & Hk).
      simpl in Hs. injection Hs as -> ->. auto.
  - split; [discriminate|].
    intros (w & rest & Hs & (Hne & _) & _).
    symmetry in Hs. apply app_eq_nil in Hs as [-> _]. now destruct Hne.
  - rewrite andb_true_iff, repeatMatcher_spec. split.
    + intros [Hc (w & rest & -> & Hw & Hk)].
      exists (c :: w), rest. repeat split; auto.
    + intros (w & rest & Hs & (Hne & Hw) & Hk).
      destruct w as [|c' w]; [now destruct Hne|].
      simpl in Hs. injection Hs as <- ->.
      apply Forall_cons in Hw as [Hc Hw]. eauto 6.
Qed.

Lemma patternMatcher_spec p : forall k s,
  patternMatcher p k s = true <->
  exists w rest, s = w ++ rest /\ pattern_lang p w /\ k rest = true.
Proof.
  induction p as [|t p IH]; intros k s; simpl.
  - split.
    + intros Hk. exists [], s. auto.
    + intros (w & rest & -> & -> & Hk). exact Hk.
  - rewrite termMatcher_spec. split.
    + intros (w1 & r1 & -> & Ht & Hp).
      apply IH in Hp as (w2 & rest & -> & Hp & Hk).
      exists (w1 ++ w2), rest. rewrite <- app_assoc. eauto 8.
    + intros (w & rest & -> & (w1 & w2 & -> & Ht & Hp) & Hk).
      exists w1, (w2 ++ rest). rewrite <- app_assoc.
      repeat split; auto. apply IH. eauto.
Qed.

Lemma matchHere_spec p s :
  matchHere p s = true <-> exists w post, s = w ++ post /\ pattern_lang p w.
Proof.
  unfold matchHere. rewrite patternMatcher_spec.
  split; intros (w & post & Hs & Hp); [destruct Hp|]; eauto.
Qed.

(** [test] answers whether some substring is in the language. *)
Lemma test_spec p s : test p s = true <-> contains_match p s.
Proof.
  unfold contains_match. induction s as [|c s IH]; simpl.
  - rewrite orb_false_r, matchHere_spec. split.
    + intros (w & post & Hs & Hp). exists [], w, post. auto.
    + intros (pre & w & post & Hs & Hp).
      symmetry in Hs. apply app_eq_nil in Hs as [-> Hs]. eauto.
  - rewrite orb_true_iff, matchHere_spec, IH. split.
    + intros [(w & post & Hs & Hp) | (pre & w & post & -> & Hp)].
      * exists [], w, post. split; [exact Hs | exact Hp].
      * exists (c :: pre), w, post. split; [reflexivity | exact Hp].
    + intros (pre & w & post & Hs & Hp). destruct pre as [|c' pre].
      * left. exists w, post. split; [exact Hs | exact Hp].
      * right. simpl in Hs. injection Hs as <- ->. eauto.
Qed.

Lemma test_false_spec p s : test p s = false <-> ~ contains_match p s.
Proof. rewrite <- test_spec. now destruct (test p s). Qed.

End MatcherCorrect.

(** The language of [/\S+@\S+\.\S+/], spelled out: a non-space run, an
    [@], a non-space run, a dot and a non-space run, anywhere in [s]. *)
Lemma EMAIL_RE_contains (s : jsstring) :
  contains_match EMAIL_RE s <->
  exists pre a b c post,
    s = pre ++ a ++ [0x40] ++ b ++ [0x2E] ++ c ++ post /\
    nonspace_run a /\ nonspace_run b /\ nonspace_run c.
Proof.
  assert (Hrun : forall w, term_lang (OneOrMore NotSpace) w <-> nonspace_run w).
  { intros w. unfold nonspace_run. simpl.
    assert (Forall (fun c => negb (isSpace c) = true) w <->
            Forall (fun c => isSpace c = false) w) as ->; [|tauto].
    apply Forall_iff. intros c. apply negb_true_iff. }
  unfold contains_match, EMAIL_RE. split.
  - intros (pre & w & post & -> & Hw). cbn [pattern_lang] in Hw.
    destruct Hw as (a & w1 & -> & Ha & x & w2 & -> & (cx & -> & Hx)
                      & b & w3 & -> & Hb & y & w4 & -> & (cy & -> & Hy)
                      & c & w5 & -> & Hc & ->).
    simpl in Hx, Hy. apply N.eqb_eq in Hx as ->. apply N.eqb_eq in Hy as ->.
    apply Hrun in Ha, Hb, Hc.
    exists pre, a, b, c, post. rewrite app_nil_r.
    split; [now rewrite <- !app_assoc | auto].
  - intros (pre & a & b & c & post & -> & Ha & Hb & Hc).
    apply Hrun in Ha, Hb, Hc.
    exists pre, (a ++ [0x40] ++ b ++ [0x2E] ++ c), post. split.
    + now rewrite <- !app_assoc.
    + cbn [pattern_lang].
      exists a, ([0x40] ++ b ++ [0x2E] ++ c). do 2 (split; [done|]).
      exists [0x40], (b ++ [0x2E] ++ c). split; [done|]. split; [now exists 0x40|].
      exists b, ([0x2E] ++ c). do 2 (split; [done|]).
      exists [0x2E], c. split; [done|]. split; [now exists 0x2E|].
      exists c, []. now rewrite app_nil_r.
Qed.

(** ** The validator *)

Section Validator.

Context {P : Type} `{IdentityProvider P}.

Implicit Types (r : Render) (w : World P) (d : FormFields).

(** One run of [validateForm]: the computed mapping goes into the
    [formErrors] cell and the verdict is returned. *)
Lemma validateForm_run r w :
  validateForm r w =
  (Normal (no_keys (validateForm_errors (isLogin r) (authData r))),
   mkWorld (browser w) (st_authData w) (validateForm_errors (isLogin r) (authData r))
           (localStorage w) (store w) (idp w) (trace w)).
Proof. reflexivity. Qed.

Lemma no_keys_spec (errors : gmap string jsstring) :
  no_keys errors = true <-> errors = ∅.
Proof. unfold no_keys. rewrite Nat.eqb_eq. apply map_size_empty_iff. Qed.

Lemma errors_email d (mode : bool) :
  validateForm_errors mode d !! "email" =
  if negb (truthy (email d)) then Some (lit "Email is required.")
  else if negb (test EMAIL_RE (email d)) then Some (lit "Email is invalid.")
  else None.
Proof.
  unfold validateForm_errors.
  repeat case_match; now simplify_map_eq.
Qed.

Lemma errors_password d (mode : bool) :
  validateForm_errors mode d !! "password" =
  if negb (truthy (password d)) then Some (lit "Password is required.")
  else if strlen (password d) <? 6
       then Some (lit "Password must be at least 6 characters.")
  else None.
Proof.
  unfold validateForm_errors.
  repeat case_match; now simplify_map_eq.
Qed.

Lemma errors_name d (mode : bool) :
  validateForm_errors mode d !! "name" =
  if negb mode && negb (truthy (name d))
  then Some (lit "Full name is required for signup.")
  else None.
Proof.
  unfold validateForm_errors.
  repeat case_match; now simplify_map_eq.
Qed.

(** C3: the [email] entry of the mapping [validateForm] produces is
    "Email is required." for the empty email, "Email is invalid." for a
    non-empty email in which [/\S+@\S+\.\S+/] finds no match, and absent
    otherwise. *)
Theorem validateForm_email_entry r w :
  let errors := st_formErrors (validateForm r w).2 in
  let e := email (authData r) in
  (e = [] -> errors !! "email" = Some (lit "Email is required.")) /\
  (e <> [] -> ~ contains_match EMAIL_RE e ->
     errors !! "email" = Some (lit "Email is invalid.")) /\
  (e <> [] -> contains_match EMAIL_RE e -> errors !! "email" = None).
Proof.
  rewrite validateForm_run. cbn [snd st_formErrors]. rewrite errors_email.
  repeat split.
  - now intros ->.
  - intros He Hno. apply test_false_spec in Hno. rewrite Hno.
    destruct (email (authData r)); [now destruct He | reflexivity].
  - intros He Hyes. apply test_spec in Hyes. rewrite Hyes.
    destruct (email (authData r)); [now destruct He | reflexivity].
Qed.

(** C4: the mapping has a [password] entry when the password is shorter
    than 6 code units, the empty password included, and none otherwise. *)
Theorem validateForm_password_entry r w :
  let errors := st_formErrors (validateForm r w).2 in
  let pw := password (authData r) in
  (strlen pw < 6 -> is_Some (errors !! "password")) /\
  (6 <= strlen pw -> errors !! "password" = None).
Proof.
  rewrite validateForm_run. cbn [snd st_formErrors]. rewrite errors_password.
  split.
  - intros Hlt. apply N.ltb_lt in Hlt. rewrite Hlt.
    destruct (negb _); eauto.
  - intros Hge. apply N.ltb_ge in Hge. rewrite Hge.
    destruct (password (authData r)); [discriminate | reflexivity].
Qed.

(** C5: in signup mode an empty name gives a [name] entry; in login mode
    there is no [name] entry whatever the name is. *)
Theorem validateForm_name_entry r w :
  let errors := st_formErrors (validateForm r w).2 in
  (isLogin r = false -> name (authData r) = [] -> is_Some (errors !! "name")) /\
  (isLogin r = true -> errors !! "name" = None).
Proof.
  rewrite validateForm_run. cbn [snd st_formErrors]. rewrite errors_name.
  split.
  - intros -> ->. simpl. eauto.
  - now intros ->.
Qed.

End Validator.

(** ** The authentication handlers *)

Section HandlersCorrect.

Context {P : Type} `{IdentityProvider P}.

Implicit Types (r : Render) (w : World P) (p : P).

Lemma loginHandler_resolved w e pw resp p' :
  provider_signIn e pw (idp w) = (Normal resp, p') ->
  token_accepted w (accessToken (user resp)) ->
  loginHandler e pw w = (Normal tt, logged_in w e pw resp p').
Proof.
  intros Hin Hok. unfold loginHandler, signInUserEmailAndPass, call_provider.
  step_monad. rewrite Hin. step_monad.
  unfold token_accepted in Hok. rewrite Hok. unfold logged_in.
  step_monad. now rewrite <- !app_assoc.
Qed.

(** When the browser refuses the write, [loginHandler] ends there, by the
    error [setItem] threw. *)
Lemma loginHandler_refused w e pw resp p' err :
  provider_signIn e pw (idp w) = (Normal resp, p') ->
  setItem_refused (browser w) (localStorage w) "idToken" (accessToken (user resp))
    = Some err ->
  loginHandler e pw w = (Throw err, signIn_returned w e pw p').
Proof.
  intros Hin Hno. unfold loginHandler, signInUserEmailAndPass, call_provider.
  step_monad. rewrite Hin. step_monad. now rewrite Hno.
Qed.

(** A rejected sign-in leaves [loginHandler] by the same throw, with
    nothing done but the call. *)
Lemma loginHandler_rejected w e pw (v : thrown) p' :
  provider_signIn e pw (idp w) = (Throw v, p') ->
  loginHandler e pw w = (Throw v, signIn_returned w e pw p').
Proof.
  intros Hin. unfold loginHandler, signInUserEmailAndPass, call_provider.
  step_monad. now rewrite Hin.
Qed.

(** C1, as the code has it: when the sign-in resolves with a response
    whose [user.accessToken] is [T] and the browser accepts the write of
    [T] under "idToken", [loginHandler] completes normally with
    [localStorage] holding [T] under "idToken", the store's token equal to
    [T], the login status refreshed after the token was published (and so
    reading logged in), and a navigation to "/home" as its last call. *)
Theorem loginHandler_success w e pw resp p' :
  provider_signIn e pw (idp w) = (Normal resp, p') ->
  let T := accessToken (user resp) in
  token_accepted w T ->
  exists w',
    loginHandler e pw w = (Normal tt, w') /\
    localStorage w' !! "idToken" = Some T /\
    idToken (store w') = Some T /\
    loginStatus (store w') = true /\
    trace w' = trace w ++ [ ProviderCall (SignInEmailAndPass e pw);
                            Dispatch (setIdToken (Some T));
                            Dispatch setLoginStatus;
                            Navigate (lit "/home") ].
Proof.
  intros Hin T Hok. exists (logged_in w e pw resp p').
  split; [now apply loginHandler_resolved|].
  unfold logged_in. cbn. split; [apply lookup_insert_eq|].
  now repeat split.
Qed.

Lemma handleSubmit_invalid r w :
  validateForm_errors (isLogin r) (authData r) <> ∅ ->
  handleSubmit r w = (Normal tt, validated r w).
Proof.
  intros Hne. unfold handleSubmit.
  unfold mbind, M_bind, bind, emit.
  rewrite validateForm_run.
  cbn [browser st_authData localStorage store idp trace].
  destruct (no_keys _) eqn:Hk; [|reflexivity].
  apply no_keys_spec in Hk. contradiction.
Qed.

(** C2: when the validator's mapping is not empty, [handleSubmit] returns
    having called [preventDefault] and nothing else: no provider
    operation, and [localStorage], the store (token and mode flag) and the
    provider are as they were. *)
Theorem handleSubmit_invalid_aborts r w :
  validateForm_errors (isLogin r) (authData r) <> ∅ ->
  exists w',
    handleSubmit r w = (Normal tt, w') /\
    trace w' = trace w ++ [PreventDefault] /\
    idp w' = idp w /\
    localStorage w' = localStorage w /\
    store w' = store w.
Proof.
  intros Hne. exists (validated r w).
  split; [now apply handleSubmit_invalid | now repeat split].
Qed.

(** A valid submission goes on to its branch, from the [validated] world. *)
Lemma handleSubmit_valid r w :
  validateForm_errors (isLogin r) (authData r) = ∅ ->
  handleSubmit r w =
  try_catch
    ((if isLogin r then
        loginHandler (email (authData r)) (password (authData r))
      else
        createUserEmailAndPass (email (authData r)) (password (authData r)) ;;
        loginHandler (email (authData r)) (password (authData r))) ;;
     dispatch (setIsLogin true))
    (fun error =>
       msg ← read_message error;
       console_error (lit "Authentication error:") msg)
    (validated r w).
Proof.
  intros Hok. apply no_keys_spec in Hok as Hk.
  unfold handleSubmit.
  unfold mbind at 1 2, M_bind at 1 2, bind at 1 2, emit.
  rewrite validateForm_run.
  cbn [browser st_authData localStorage store idp trace].
  now rewrite Hk.
Qed.

(** A valid submission in login mode whose sign-in resolves and whose
    token the browser stores. *)
Lemma handleSubmit_login r w resp p' :
  validateForm_errors (isLogin r) (authData r) = ∅ ->
  isLogin r = true ->
  provider_signIn (email (authData r)) (password (authData r)) (idp w)
    = (Normal resp, p') ->
  token_accepted w (accessToken (user resp)) ->
  let w1 := logged_in (validated r w)
              (email (authData r)) (password (authData r)) resp p' in
  handleSubmit r w =
  (Normal tt,
   mkWorld (browser w1) (st_authData w1) (st_formErrors w1) (localStorage w1)
           (authReducer (store w1) (setIsLogin true)) (idp w1)
           (trace w1 ++ [Dispatch (setIsLogin true)])).
Proof.
  intros Hok Hmode Hin Hacc. rewrite handleSubmit_valid by exact Hok.
  rewrite Hmode. unfold try_catch, mbind, M_bind, bind.
  now rewrite (loginHandler_resolved (validated r w) _ _ resp p' Hin Hacc).
Qed.

(** The world after the account creation of a signup submission. *)
Lemma createUser_resolved w e pw p1 :
  provider_create e pw (idp w) = (Normal tt, p1) ->
  createUserEmailAndPass e pw w = (Normal tt, created w e pw p1).
Proof.
  intros Hnew. unfold createUserEmailAndPass, call_provider. now rewrite Hnew.
Qed.

(** A valid submission in signup mode whose creation and sign-in resolve
    and whose token the browser stores. *)
Lemma handleSubmit_signup r w p1 resp p2 :
  validateForm_errors (isLogin r) (authData r) = ∅ ->
  isLogin r = false ->
  provider_create (email (authData r)) (password (authData r)) (idp w)
    = (Normal tt, p1) ->
  provider_signIn (email (authData r)) (password (authData r)) p1
    = (Normal resp, p2) ->
  token_accepted w (accessToken (user resp)) ->
  let e := email (authData r) in
  let pw := password (authData r) in
  let w1 := logged_in (created (validated r w) e pw p1) e pw resp p2 in
  handleSubmit r w =
  (Normal tt,
   mkWorld (browser w1) (st_authData w1) (st_formErrors w1) (localStorage w1)
           (authReducer (store w1) (setIsLogin true)) (idp w1)
           (trace w1 ++ [Dispatch (setIsLogin true)])).
Proof.
  intros Hok Hmode Hnew Hin Hacc. rewrite handleSubmit_valid by exact Hok.
  rewrite Hmode. unfold try_catch, mbind, M_bind, bind.
  rewrite (createUser_resolved (validated r w) _ _ p1 Hnew).
  now rewrite (loginHandler_resolved (created (validated r w) _ _ p1)
                 _ _ resp p2 Hin Hacc).
Qed.

(** C6, as the code has it: after a valid submission whose provider calls
    all succeed, in either mode, and whose token the browser accepts to
    store, the mode flag of the store is [true], and setting it is the
    last thing the handler does. *)
Theorem handleSubmit_success_sets_login_mode r w resp :
  validateForm_errors (isLogin r) (authData r) = ∅ ->
  submit_calls_yield r (idp w) resp ->
  token_accepted w (accessToken (user resp)) ->
  exists w',
    handleSubmit r w = (Normal tt, w') /\
    auth_isLogin (store w') = true /\
    last (trace w') = Some (Dispatch (setIsLogin true)).
Proof.
  intros Hok Hcalls Hacc. unfold submit_calls_yield in Hcalls.
  destruct (isLogin r) eqn:Hmode.
  - destruct Hcalls as (p' & Hin).
    eexists. split.
    + apply (handleSubmit_login r w resp p');
        [now rewrite Hmode | exact Hmode | exact Hin | exact Hacc].
    + split; [reflexivity | apply last_snoc].
  - destruct Hcalls as (p1 & p2 & Hnew & Hin).
    eexists. split.
    + apply (handleSubmit_signup r w p1 resp p2);
        [now rewrite Hmode | exact Hmode | exact Hnew | exact Hin | exact Hacc].
    + split; [reflexivity | apply last_snoc].
Qed.

End HandlersCorrect.

(** ** The validator writes the errors it finds *)

Section ValidatorEffects.

Context {P : Type} `{IdentityProvider P}.

Implicit Types (r : Render) (w : World P).

(** C7, as the code has it: [validateForm] completes normally, replaces
    the stored [formErrors] by the mapping it computed, returns [true]
    exactly when that mapping is empty, and leaves the form fields,
    [localStorage], the store, the provider and the trace of calls as they
    were. *)
Theorem validateForm_only_writes_formErrors r w :
  exists b w',
    validateForm r w = (Normal b, w') /\
    st_formErrors w' = validateForm_errors (isLogin r) (authData r) /\
    (b = true <-> st_formErrors w' = ∅) /\
    st_authData w' = st_authData w /\
    localStorage w' = localStorage w /\
    store w' = store w /\
    idp w' = idp w /\
    trace w' = trace w.
Proof.
  rewrite validateForm_run. do 2 eexists. split; [reflexivity|].
  cbn. split; [reflexivity|]. split; [apply no_keys_spec | now repeat split].
Qed.

End ValidatorEffects.

(** C7, as stated, fails: validating the blank form of a freshly mounted
    component changes the stored [formErrors], which was empty. *)
Lemma validateForm_changes_formErrors :
  st_formErrors
    (validateForm (render (Demo.fresh true Demo.blank Demo.nobody))
                  (Demo.fresh true Demo.blank Demo.nobody)).2
  <> st_formErrors (Demo.fresh true Demo.blank Demo.nobody).
Proof.
  rewrite validateForm_run. cbn [snd st_formErrors Demo.fresh].
  intros Heq. apply (f_equal (fun m => m !! "email")) in Heq.
  rewrite errors_email in Heq. discriminate Heq.
Qed.

(** ** Mode toggle, sign-out and Google sign-in *)

Section OtherHandlers.

Context {P : Type} `{IdentityProvider P}.

Implicit Types (r : Render) (w : World P).

(** C8: two toggles in a row, the second one created by the render that
    follows the first, bring the mode flag back to where it was: the first
    dispatches the negated flag, the second the original one. *)
Theorem toggleAuthMode_twice w :
  let w1 := (toggleAuthMode (render w) w).2 in
  let w2 := (toggleAuthMode (render w1) w1).2 in
  (toggleAuthMode (render w) w).1 = Normal tt /\
  (toggleAuthMode (render w1) w1).1 = Normal tt /\
  auth_isLogin (store w2) = auth_isLogin (store w) /\
  trace w2 = trace w ++ [ Dispatch (setIsLogin (negb (auth_isLogin (store w))));
                          Dispatch (setIsLogin (auth_isLogin (store w))) ].
Proof.
  cbn. rewrite negb_involutive, <- app_assoc. now repeat split.
Qed.

(** Without a render in between, both toggles read the same flag and the
    second one repeats the first. *)
Remark toggleAuthMode_same_render w :
  let w1 := (toggleAuthMode (render w) w).2 in
  let w2 := (toggleAuthMode (render w) w1).2 in
  auth_isLogin (store w2) = negb (auth_isLogin (store w)).
Proof. reflexivity. Qed.



(** The calls [loginWithGoogleHandler] makes, whatever the provider and
    the browser answer: none of them is a navigation. *)
Lemma loginWithGoogleHandler_calls w :
  exists calls,
    trace (loginWithGoogleHandler w).2 = trace w ++ calls /\
    existsb is_navigation calls = false.
Proof.
  unfold loginWithGoogleHandler, signInWithGoogle, call_provider.
  step_monad. destruct (provider_google (idp w)) as [[res | [err | |]] p1];
    step_monad.
  - destruct (setItem_refused (browser w) (localStorage w) "idToken" (token res))
      as [err|]; step_monad.
    + eexists. split; [now rewrite <- !app_assoc | reflexivity].
    + eexists. split; [now rewrite <- !app_assoc | reflexivity].
  - eexists. split; [now rewrite <- !app_assoc | reflexivity].
  - eexists. split; [reflexivity | reflexivity].
  - eexists. split; [now rewrite <- !app_assoc | reflexivity].
Qed.

(** The world a resolved Google sign-in leaves when the browser stores
    the token. *)
Lemma loginWithGoogleHandler_resolved w res p' :
  provider_google (idp w) = (Normal res, p') ->
  token_accepted w (token res) ->
  loginWithGoogleHandler w =
  (Normal tt,
   mkWorld (browser w) (st_authData w) (st_formErrors w)
           (<["idToken" := token res]> (localStorage w))
           (authReducer (authReducer (store w) (setIdToken (Some (token res))))
                        setLoginStatus)
           p'
           (trace w ++ [ ProviderCall SignInGoogle;
                         Dispatch (setIdToken (Some (token res)));
                         Dispatch setLoginStatus ])).
Proof.
  intros Hg Hacc. unfold loginWithGoogleHandler, signInWithGoogle, call_provider.
  step_monad. rewrite Hg. step_monad.
  unfold token_accepted in Hacc. rewrite Hacc.
  step_monad. now rewrite <- !app_assoc.
Qed.

(** C10, as the code has it: whatever the provider and the browser
    answer, none of the calls [loginWithGoogleHandler] makes is a
    navigation; when the provider resolves with a token and the browser
    accepts to store it, the handler completes normally, the token is
    persisted under "idToken" and published to the store, followed by a
    status refresh, and these are all the calls made.  The
    email-and-password [loginHandler], on a resolved sign-in whose token
    is stored, does end by navigating to "/home". *)
Theorem loginWithGoogleHandler_never_navigates w :
  (exists calls,
     trace (loginWithGoogleHandler w).2 = trace w ++ calls /\
     existsb is_navigation calls = false) /\
  (forall res p',
     provider_google (idp w) = (Normal res, p') ->
     token_accepted w (token res) ->
     exists w',
       loginWithGoogleHandler w = (Normal tt, w') /\
       localStorage w' !! "idToken" = Some (token res) /\
       idToken (store w') = Some (token res) /\
       loginStatus (store w') = true /\
       trace w' = trace w ++ [ ProviderCall SignInGoogle;
                               Dispatch (setIdToken (Some (token res)));
                               Dispatch setLoginStatus ]) /\
  (forall e pw resp p',
     provider_signIn e pw (idp w) = (Normal resp, p') ->
     token_accepted w (accessToken (user resp)) ->
     last (trace (loginHandler e pw w).2) = Some (Navigate (lit "/home"))).
Proof.
  split; [apply loginWithGoogleHandler_calls|]. split.
  - intros res p' Hg Hacc.
    rewrite (loginWithGoogleHandler_resolved w res p' Hg Hacc).
    eexists. split; [reflexivity|]. cbn.
    split; [apply lookup_insert_eq | now repeat split].
  - intros e pw resp p' Hin Hacc.
    rewrite (loginHandler_resolved w e pw resp p' Hin Hacc).
    unfold logged_in. cbn [snd trace].
    change [ProviderCall (SignInEmailAndPass e pw);
            Dispatch (setIdToken (Some (accessToken (user resp))));
            Dispatch setLoginStatus; Navigate (lit "/home")]
      with ([ProviderCall (SignInEmailAndPass e pw);
             Dispatch (setIdToken (Some (accessToken (user resp))));
             Dispatch setLoginStatus] ++ [Navigate (lit "/home")]).
    rewrite app_assoc. apply last_snoc.
Qed.

End OtherHandlers.

(* ===================================================================== *)
(** * The handlers on concrete inputs *)
(* ===================================================================== *)

Section Runs.

Import Demo Scenarios.

(** The spec's two validator examples. *)
Example valid_login_form :
  validateForm_errors true
    (mkFormFields [] (lit "a@b.com") (lit "abcdef")) = ∅.
Proof. reflexivity. Qed.

Example invalid_signup_form :
  validateForm_errors false bad_form =
  {[ "email" := lit "Email is invalid.";
     "password" := lit "Password must be at least 6 characters.";
     "name" := lit "Full name is required for signup." ]}.
Proof. apply map_eq. intros k. vm_compute. reflexivity. Qed.

(** The pattern is searched for, not anchored: white space around or
    before a match does not make an email invalid. *)
Example email_with_spaces_passes :
  test EMAIL_RE (lit "not an email: x@y.z !") = true.
Proof. reflexivity. Qed.

Example email_without_dot_fails : test EMAIL_RE (lit "ada@example") = false.
Proof. reflexivity. Qed.

Lemma validateForm_email_entry_witness :
  let w := fresh true blank nobody in
  st_formErrors (validateForm (mkRender true blank) w).2 !! "email"
    = Some (lit "Email is required.") /\
  st_formErrors (validateForm (mkRender true bad_form) w).2 !! "email"
    = Some (lit "Email is invalid.") /\
  st_formErrors (validateForm (mkRender true ada) w).2 !! "email" = None.
Proof.
  intros w. split; [|split].
  - apply (validateForm_email_entry (mkRender true blank) w). reflexivity.
  - apply (validateForm_email_entry (mkRender true bad_form) w).
    + discriminate.
    + apply test_false_spec. reflexivity.
  - apply (validateForm_email_entry (mkRender true ada) w).
    + discriminate.
    + apply test_spec. reflexivity.
Defined.

Lemma validateForm_password_entry_witness :
  let w := fresh true blank nobody in
  is_Some (st_formErrors (validateForm (mkRender true blank) w).2 !! "password") /\
  is_Some (st_formErrors (validateForm (mkRender true bad_form) w).2 !! "password") /\
  st_formErrors (validateForm (mkRender true ada) w).2 !! "password" = None.
Proof.
  intros w. split; [|split].
  - apply (validateForm_password_entry (mkRender true blank) w). reflexivity.
  - apply (validateForm_password_entry (mkRender true bad_form) w). reflexivity.
  - apply (validateForm_password_entry (mkRender true ada) w). discriminate.
Defined.

Lemma validateForm_name_entry_witness :
  let w := fresh false blank nobody in
  is_Some (st_formErrors (validateForm (mkRender false bad_form) w).2 !! "name") /\
  st_formErrors (validateForm (mkRender true bad_form) w).2 !! "name" = None.
Proof.
  intros w. split.
  - apply (validateForm_name_entry (mkRender false bad_form) w); reflexivity.
  - apply (validateForm_name_entry (mkRender true bad_form) w). reflexivity.
Defined.

(** Signing in a registered account from a fresh login form. *)
Lemma loginHandler_success_witness :
  exists w',
    loginHandler (lit "ada@example.org") (lit "abcdef")
                 (fresh true ada ada_registered) = (Normal tt, w') /\
    localStorage w' !! "idToken" = Some (lit "token:ada@example.org") /\
    idToken (store w') = Some (lit "token:ada@example.org") /\
    loginStatus (store w') = true /\
    trace w' =
      [ ProviderCall (SignInEmailAndPass (lit "ada@example.org") (lit "abcdef"));
        Dispatch (setIdToken (Some (lit "token:ada@example.org")));
        Dispatch setLoginStatus;
        Navigate (lit "/home") ].
Proof.
  apply (loginHandler_success (fresh true ada ada_registered)
           (lit "ada@example.org") (lit "abcdef")
           (mkUserCredential (mkUser (lit "token:ada@example.org")))
           ada_registered).
  - reflexivity.
  - vm_compute. reflexivity.
Defined.

(** C1, as stated, fails: in a browser with no room left for the token
    the sign-in resolves, [setItem] throws, and [loginHandler] ends by
    that error with nothing stored, published or navigated to. *)
Lemma loginHandler_token_not_stored :
  let w := in_browser cramped (fresh true ada ada_registered) in
  let T := lit "token:ada@example.org" in
  provider_signIn (lit "ada@example.org") (lit "abcdef") (idp w)
    = (Normal (mkUserCredential (mkUser T)), ada_registered) /\
  (loginHandler (lit "ada@example.org") (lit "abcdef") w).1
    = Throw (mkError (lit "The quota has been exceeded.")) /\
  localStorage (loginHandler (lit "ada@example.org") (lit "abcdef") w).2
    !! "idToken" <> Some T /\
  idToken (store (loginHandler (lit "ada@example.org") (lit "abcdef") w).2)
    <> Some T /\
  trace (loginHandler (lit "ada@example.org") (lit "abcdef") w).2 =
    [ProviderCall (SignInEmailAndPass (lit "ada@example.org") (lit "abcdef"))].
Proof.
  intros w T.
  split; [reflexivity|]. split; [vm_compute; reflexivity|].
  split; [vm_compute; discriminate|].
  split; [vm_compute; discriminate | vm_compute; reflexivity].
Qed.

(** Submitting the spec's failing example in signup mode. *)
Lemma handleSubmit_invalid_aborts_witness :
  exists w',
    handleSubmit (mkRender false bad_form) (fresh false bad_form nobody)
      = (Normal tt, w') /\
    trace w' = [PreventDefault] /\
    idp w' = nobody /\
    localStorage w' = ∅ /\
    store w' = mkAuthSlice false None false.
Proof.
  apply (handleSubmit_invalid_aborts (mkRender false bad_form)
           (fresh false bad_form nobody)).
  intros Heq. apply (f_equal (fun m => m !! "name")) in Heq.
  vm_compute in Heq. discriminate Heq.
Defined.

(** A signup of a new account: the flag was [false] and ends [true]. *)
Lemma handleSubmit_success_sets_login_mode_witness :
  auth_isLogin (store (fresh false ada nobody)) = false /\
  exists w',
    handleSubmit (mkRender false ada) (fresh false ada nobody) = (Normal tt, w') /\
    auth_isLogin (store w') = true /\
    last (trace w') = Some (Dispatch (setIsLogin true)).
Proof.
  split; [reflexivity|].
  apply (handleSubmit_success_sets_login_mode (mkRender false ada)
           (fresh false ada nobody)
           (mkUserCredential (mkUser (lit "token:ada@example.org")))).
  - reflexivity.
  - exists (mkDirectory [(lit "ada@example.org", lit "abcdef")] true),
           (mkDirectory [(lit "ada@example.org", lit "abcdef")] true).
    split; reflexivity.
  - vm_compute. reflexivity.
Defined.

(** C6, as stated, fails: a valid signup whose creation and sign-in both
    succeed, in a browser with no room left for the token; [setItem]
    throws, the [catch] block logs the error, and the mode flag is still
    [false]. *)
Lemma handleSubmit_success_flag_not_set :
  let w := in_browser cramped (fresh false ada nobody) in
  let r := mkRender false ada in
  validateForm_errors (isLogin r) (authData r) = ∅ /\
  submit_calls_yield r (idp w)
    (mkUserCredential (mkUser (lit "token:ada@example.org"))) /\
  (handleSubmit r w).1 = Normal tt /\
  auth_isLogin (store (handleSubmit r w).2) = false /\
  trace (handleSubmit r w).2 =
    [ PreventDefault;
      ProviderCall (CreateEmailAndPass (lit "ada@example.org") (lit "abcdef"));
      ProviderCall (SignInEmailAndPass (lit "ada@example.org") (lit "abcdef"));
      ConsoleError (lit "Authentication error:") (lit "The quota has been exceeded.") ].
Proof.
  intros w r. split; [reflexivity|]. split.
  { exists ada_registered, ada_registered. split; reflexivity. }
  split; [vm_compute; reflexivity|].
  split; vm_compute; reflexivity.
Qed.


(** A Google sign-in that resolves, next to a password sign-in. *)
Lemma loginWithGoogleHandler_never_navigates_witness :
  exists w',
    loginWithGoogleHandler (fresh true ada ada_registered) = (Normal tt, w') /\
    localStorage w' !! "idToken" = Some (lit "google-token") /\
    idToken (store w') = Some (lit "google-token") /\
    loginStatus (store w') = true /\
    trace w' = [ ProviderCall SignInGoogle;
                 Dispatch (setIdToken (Some (lit "google-token")));
                 Dispatch setLoginStatus ].
Proof.
  destruct (loginWithGoogleHandler_never_navigates (fresh true ada ada_registered))
    as (_ & Hok & _).
  apply (Hok (mkGoogleResult (lit "google-token")) ada_registered).
  - reflexivity.
  - vm_compute. reflexivity.
Defined.

(** C10, as stated, fails: the Google sign-in resolves with a token, in a
    browser with no room left for it; [setItem] throws, the [catch] block
    logs the error, and the token is neither persisted nor published. *)
Lemma loginWithGoogleHandler_token_not_persisted :
  let w := in_browser cramped (fresh true blank nobody) in
  provider_google (idp w) = (Normal (mkGoogleResult (lit "google-token")), nobody) /\
  (loginWithGoogleHandler w).1 = Normal tt /\
  localStorage (loginWithGoogleHandler w).2 !! "idToken"
    <> Some (lit "google-token") /\
  idToken (store (loginWithGoogleHandler w).2) <> Some (lit "google-token") /\
  trace (loginWithGoogleHandler w).2 =
    [ ProviderCall SignInGoogle;
      ConsoleError (lit "Google Sign-In Error:") (lit "The quota has been exceeded.") ].
Proof.
  intros w. split; [reflexivity|]. split; [vm_compute; reflexivity|].
  split; [vm_compute; discriminate|].
  split; [vm_compute; discriminate | vm_compute; reflexivity].
Qed.

End Runs.

(* ===================================================================== *)
(** * Further properties of the validator *)
(* ===================================================================== *)

Section ValidatorMore.

Context {P : Type} `{IdentityProvider P}.

Implicit Types (r : Render) (w : World P) (d : FormFields).

Lemma test_nonempty (s : jsstring) : test EMAIL_RE s = true -> s <> [].
Proof. now destruct s. Qed.

Lemma strlen_nonempty (s : jsstring) : (strlen s <? 6) = false -> s <> [].
Proof. now destruct s. Qed.

(** The mapping is empty exactly when none of the three rules fires. *)
Lemma validateForm_errors_empty (mode : bool) d :
  validateForm_errors mode d = ∅ <->
  test EMAIL_RE (email d) = true /\
  (strlen (password d) <? 6) = false /\
  (mode = true \/ name d <> []).
Proof.
  split.
  - intros Hall.
    pose proof (errors_email d mode) as He.
    pose proof (errors_password d mode) as Hp.
    pose proof (errors_name d mode) as Hn.
    rewrite Hall, lookup_empty in He, Hp, Hn.
    destruct (email d) as [|c e]; [discriminate He|]. cbn [truthy negb] in He.
    destruct (test EMAIL_RE (c :: e)); [|discriminate He].
    destruct (password d) as [|c' pw]; [discriminate Hp|]. cbn [truthy negb] in Hp.
    destruct (strlen (c' :: pw) <? 6); [discriminate Hp|].
    destruct mode; [now auto|].
    destruct (name d); [discriminate Hn | now auto].
  - intros (He & Hp & Hn). unfold validateForm_errors.
    pose proof (test_nonempty _ He) as He'.
    pose proof (strlen_nonempty _ Hp) as Hp'.
    rewrite He, Hp.
    destruct (email d); [contradiction|].
    destruct (password d); [contradiction|].
    destruct Hn as [-> | Hn]; [reflexivity|].
    destruct (name d); [contradiction|]. now rewrite andb_false_r.
Qed.

(** The verdict of [validateForm]: [true] exactly when the email contains
    a match of [/\S+@\S+\.\S+/], the password has at least 6 code units
    and, in signup mode, the name is not empty. *)
Theorem validateForm_verdict r w :
  (validateForm r w).1 = Normal true <->
  contains_match EMAIL_RE (email (authData r)) /\
  6 <= strlen (password (authData r)) /\
  (isLogin r = true \/ name (authData r) <> []).
Proof.
  rewrite validateForm_run. cbn [fst].
  rewrite <- test_spec, <- N.ltb_ge, <- validateForm_errors_empty, <- no_keys_spec.
  split; [now intros [= ->] | now intros ->].
Qed.

(** The two messages of the password rule: "Password is required." for
    the empty password, "Password must be at least 6 characters." for one
    of 1 to 5 code units. *)
Theorem validateForm_password_messages r w :
  let errors := st_formErrors (validateForm r w).2 in
  let pw := password (authData r) in
  (pw = [] -> errors !! "password" = Some (lit "Password is required.")) /\
  (pw <> [] -> strlen pw < 6 ->
     errors !! "password" = Some (lit "Password must be at least 6 characters.")).
Proof.
  rewrite validateForm_run. cbn [snd st_formErrors]. rewrite errors_password.
  split.
  - now intros ->.
  - intros Hne Hlt. apply N.ltb_lt in Hlt. rewrite Hlt.
    destruct (password (authData r)); [contradiction | reflexivity].
Qed.

(** The name rule, both ways: the mapping has the entry "Full name is
    required for signup." in signup mode with an empty name, and no [name]
    entry in every other case. *)
Theorem validateForm_name_message r w :
  let errors := st_formErrors (validateForm r w).2 in
  (isLogin r = false /\ name (authData r) = [] ->
     errors !! "name" = Some (lit "Full name is required for signup.")) /\
  (isLogin r = true \/ name (authData r) <> [] -> errors !! "name" = None).
Proof.
  rewrite validateForm_run. cbn [snd st_formErrors]. rewrite errors_name.
  split.
  - now intros [-> ->].
  - intros [-> | Hne]; [reflexivity|].
    destruct (name (authData r)); [contradiction|]. now rewrite andb_false_r.
Qed.

(** The signup mapping is the login mapping, plus the name entry when the
    name is empty. *)
Lemma validateForm_errors_signup d :
  validateForm_errors false d =
  if truthy (name d) then validateForm_errors true d
  else <["name" := lit "Full name is required for signup."]>
         (validateForm_errors true d).
Proof. unfold validateForm_errors. now destruct (name d). Qed.

(** Every error reported in login mode is reported, with the same
    message, in signup mode: switching a form from signup to login never
    adds an error. *)
Theorem validateForm_login_errors_in_signup d :
  validateForm_errors true d ⊆ validateForm_errors false d.
Proof.
  rewrite validateForm_errors_signup. destruct (truthy (name d)); [reflexivity|].
  apply insert_subseteq. now rewrite errors_name.
Qed.

(** The mapping has no keys besides the three field names. *)
Theorem validateForm_errors_keys (mode : bool) d :
  dom (validateForm_errors mode d) ⊆ ({["email"; "password"; "name"]} : gset string).
Proof.
  unfold validateForm_errors.
  repeat case_match; rewrite ?dom_insert_L, ?dom_empty_L;
    intros k; rewrite ?elem_of_union, ?elem_of_singleton, ?elem_of_empty; tauto.
Qed.

End ValidatorMore.

(** ** What the email pattern accepts *)

Section EmailPattern.

Implicit Types (s pre post : jsstring) (p : pattern).

Lemma nonempty_last (a : jsstring) :
  a <> [] -> exists a' x, a = a' ++ [x].
Proof.
  intros Hne. destruct (exists_last Hne) as (a' & x & ->). eauto.
Qed.

(** The greedy runs at both ends add nothing: [test] accepts [s] exactly
    when [s] contains a non-space code unit, an [@], a run of non-space
    code units, a dot and a non-space code unit, in a row. *)
Theorem EMAIL_RE_test_minimal s :
  test EMAIL_RE s = true <->
  exists pre x b y post,
    s = pre ++ [x; 0x40] ++ b ++ [0x2E; y] ++ post /\
    isSpace x = false /\ nonspace_run b /\ isSpace y = false.
Proof.
  rewrite test_spec, EMAIL_RE_contains. split.
  - intros (pre & a & b & c & post & -> & [Ha Hsa] & Hb & [Hc Hsc]).
    destruct (nonempty_last a Ha) as (a' & x & ->).
    destruct c as [|y c']; [contradiction|].
    apply Forall_app in Hsa as [_ Hx]. rewrite Forall_singleton in Hx.
    apply Forall_cons in Hsc as [Hy _].
    exists (pre ++ a'), x, b, y, (c' ++ post).
    split; [now rewrite <- !app_assoc|].
    split; [exact Hx|]. split; [exact Hb | exact Hy].
  - intros (pre & x & b & y & post & -> & Hx & Hb & Hy).
    exists pre, [x], b, [y], post. split; [reflexivity|].
    split; [|split; [exact Hb|]].
    + split; [discriminate | now apply Forall_singleton].
    + split; [discriminate | now apply Forall_singleton].
Qed.

(** What every accepted email has: an [@], a dot, and at least 5 code
    units. *)
Theorem EMAIL_RE_test_needs s :
  test EMAIL_RE s = true ->
  0x40 ∈ s /\ 0x2E ∈ s /\ 5 <= strlen s.
Proof.
  rewrite test_spec, EMAIL_RE_contains.
  intros (pre & a & b & c & post & -> & [Ha _] & [Hb _] & [Hc _]).
  split; [|split].
  - set_solver.
  - set_solver.
  - unfold strlen. rewrite !length_app.
    destruct a; [contradiction|]. destruct b; [contradiction|].
    destruct c; [contradiction|]. rewrite !length_cons. lia.
Qed.

(** The pattern is searched for anywhere: whatever is put before or after
    an accepted string, the result is still accepted. *)
Theorem test_extends p s pre post :
  test p s = true -> test p (pre ++ s ++ post) = true.
Proof.
  rewrite !test_spec. intros (pre' & m & post' & -> & Hm).
  exists (pre ++ pre'), m, (post' ++ post). split; [|exact Hm].
  now rewrite <- !app_assoc.
Qed.

End EmailPattern.

(* ===================================================================== *)
(** * Further properties of the handlers *)
(* ===================================================================== *)

Section SubmitMore.

Context {P : Type} `{IdentityProvider P}.

Implicit Types (r : Render) (w : World P) (d : FormFields).


(** Nor does it guard the write to [localStorage]: when the sign-in
    resolves and the browser refuses to store the token, [loginHandler]
    ends by the error [setItem] threw, after the provider call and nothing
    else: nothing is stored, dispatched or navigated. *)
Theorem loginHandler_storage_refused w e pw resp p' (err : Error) :
  provider_signIn e pw (idp w) = (Normal resp, p') ->
  setItem_refused (browser w) (localStorage w) "idToken" (accessToken (user resp))
    = Some err ->
  exists w',
    loginHandler e pw w = (Throw err, w') /\
    localStorage w' = localStorage w /\
    store w' = store w /\
    trace w' = trace w ++ [ProviderCall (SignInEmailAndPass e pw)].
Proof.
  intros Hin Hno. eexists.
  split; [exact (loginHandler_refused w e pw resp p' err Hin Hno)|].
  now repeat split.
Qed.


(** A valid login submission whose sign-in resolves but whose token the
    browser refuses to store: the error of [setItem] is caught and logged
    as "Authentication error:"; nothing is stored or published, there is
    no navigation and the mode flag is not set. *)
Theorem handleSubmit_storage_refused r w resp p' (err : Error) :
  validateForm_errors (isLogin r) (authData r) = ∅ ->
  isLogin r = true ->
  provider_signIn (email (authData r)) (password (authData r)) (idp w)
    = (Normal resp, p') ->
  setItem_refused (browser w) (localStorage w) "idToken" (accessToken (user resp))
    = Some err ->
  exists w',
    handleSubmit r w = (Normal tt, w') /\
    localStorage w' = localStorage w /\
    store w' = store w /\
    trace w' = trace w ++
      [ PreventDefault;
        ProviderCall (SignInEmailAndPass (email (authData r)) (password (authData r)));
        ConsoleError (lit "Authentication error:") (message err) ].
Proof.
  intros Hok Hmode Hin Hno. rewrite handleSubmit_valid by exact Hok.
  rewrite Hmode. unfold try_catch, mbind, M_bind, bind.
  rewrite (loginHandler_refused (validated r w) _ _ resp p' err Hin Hno).
  eexists. split; [reflexivity|]. cbn. repeat split.
  now rewrite <- !app_assoc.
Qed.



(** A valid submission whose provider calls all succeed and whose token
    the browser stores, in full: the [accessToken] of the sign-in response
    is in [localStorage] and in the store, and the calls are, in order,
    [preventDefault], the account creation (signup mode only), the
    sign-in, the two token dispatches carrying that token, the navigation
    to "/home" and, last, [setIsLogin(true)]. *)
Theorem handleSubmit_success_calls r w resp :
  validateForm_errors (isLogin r) (authData r) = ∅ ->
  submit_calls_yield r (idp w) resp ->
  token_accepted w (accessToken (user resp)) ->
  let e := email (authData r) in
  let pw := password (authData r) in
  let T := accessToken (user resp) in
  exists w',
    handleSubmit r w = (Normal tt, w') /\
    localStorage w' !! "idToken" = Some T /\
    idToken (store w') = Some T /\
    trace w' = trace w ++
      [PreventDefault] ++
      (if isLogin r then [] else [ProviderCall (CreateEmailAndPass e pw)]) ++
      [ ProviderCall (SignInEmailAndPass e pw);
        Dispatch (setIdToken (Some T));
        Dispatch setLoginStatus;
        Navigate (lit "/home");
        Dispatch (setIsLogin true) ].
Proof.
  intros Hok Hcalls Hacc e pw T. unfold submit_calls_yield in Hcalls.
  destruct (isLogin r) eqn:Hmode.
  - destruct Hcalls as (p' & Hin).
    exists (handleSubmit r w).2.
    rewrite (handleSubmit_login r w resp p');
      [| now rewrite Hmode | exact Hmode | exact Hin | exact Hacc].
    split; [reflexivity|]. cbn.
    split; [apply lookup_insert_eq|]. split; [reflexivity|].
    now rewrite <- !app_assoc.
  - destruct Hcalls as (p1 & p2 & Hnew & Hin).
    exists (handleSubmit r w).2.
    rewrite (handleSubmit_signup r w p1 resp p2);
      [| now rewrite Hmode | exact Hmode | exact Hnew | exact Hin | exact Hacc].
    split; [reflexivity|]. cbn.
    split; [apply lookup_insert_eq|]. split; [reflexivity|].
    now rewrite <- !app_assoc.
Qed.

(** The full name is validated and then dropped: two forms with the same
    email and password, and names that are both non-empty (or any names,
    in login mode), are submitted in exactly the same way. *)
Theorem handleSubmit_ignores_name (mode : bool) d d' w :
  email d = email d' ->
  password d = password d' ->
  (mode = true \/ (name d <> [] /\ name d' <> [])) ->
  handleSubmit (mkRender mode d) w = handleSubmit (mkRender mode d') w.
Proof.
  intros He Hp Hn.
  assert (Herr : validateForm_errors mode d = validateForm_errors mode d').
  { unfold validateForm_errors. rewrite He, Hp.
    destruct Hn as [-> | [Hn Hn']]; [reflexivity|].
    destruct (name d), (name d'); try contradiction. reflexivity. }
  unfold handleSubmit, validateForm.
  cbn [isLogin authData]. now rewrite Herr, He, Hp.
Qed.

(** What a [catch] block of the component does with the value it caught:
    it logs and completes, or, for [undefined] and [null], ends by the
    TypeError of reading [message]; the state is untouched either way. *)
Lemma catch_block_outcome (label : jsstring) (v : thrown) w :
  exists c w',
    (msg ← read_message v; console_error label msg) w = (c, w') /\
    (c = Normal tt \/ c = Throw (nullish_TypeError (browser w))) /\
    browser w' = browser w /\
    st_authData w' = st_authData w /\
    st_formErrors w' = st_formErrors w /\
    localStorage w' = localStorage w /\
    store w' = store w.
Proof.
  destruct v as [err | |]; step_monad; do 2 eexists;
    (split; [reflexivity|]); (split; [auto|]); now repeat split.
Qed.

(** Every way the [try] block of [handleSubmit] can end. *)
Lemma submit_branch_outcome (mode : bool) (e pw : jsstring) w :
  exists c w',
    try_catch
      ((if mode then loginHandler e pw
        else createUserEmailAndPass e pw ;; loginHandler e pw) ;;
       dispatch (setIsLogin true))
      (fun error =>
         msg ← read_message error;
         console_error (lit "Authentication error:") msg)
      w = (c, w') /\
    (c = Normal tt \/ c = Throw (nullish_TypeError (browser w))) /\
    st_authData w' = st_authData w /\
    st_formErrors w' = st_formErrors w /\
    ((localStorage w' = localStorage w /\ store w' = store w) \/
     (exists T,
        localStorage w' = <["idToken" := T]> (localStorage w) /\
        store w' =
          authReducer
            (authReducer (authReducer (store w) (setIdToken (Some T)))
                         setLoginStatus)
            (setIsLogin true))).
Proof.
  assert (Hlogin : forall w0,
    browser w0 = browser w -> st_authData w0 = st_authData w ->
    st_formErrors w0 = st_formErrors w -> localStorage w0 = localStorage w ->
    store w0 = store w ->
    exists c w',
      try_catch (loginHandler e pw ;; dispatch (setIsLogin true))
        (fun error =>
           msg ← read_message error;
           console_error (lit "Authentication error:") msg)
        w0 = (c, w') /\
      (c = Normal tt \/ c = Throw (nullish_TypeError (browser w))) /\
      st_authData w' = st_authData w /\
      st_formErrors w' = st_formErrors w /\
      ((localStorage w' = localStorage w /\ store w' = store w) \/
       (exists T,
          localStorage w' = <["idToken" := T]> (localStorage w) /\
          store w' =
            authReducer
              (authReducer (authReducer (store w) (setIdToken (Some T)))
                           setLoginStatus)
              (setIsLogin true)))).
  { intros w0 Hb Ha Hf Hl Hs. unfold try_catch at 1, mbind, M_bind, bind.
    destruct (provider_signIn e pw (idp w0)) as [[resp | v] p'] eqn:Hin.
    - destruct (setItem_refused (browser w0) (localStorage w0) "idToken"
                  (accessToken (user resp))) as [err|] eqn:Hset.
      + rewrite (loginHandler_refused w0 e pw resp p' err Hin Hset).
        destruct (catch_block_outcome (lit "Authentication error:") err
                    (signIn_returned w0 e pw p'))
          as (c & w' & Hrun & Hc & Hb' & Ha' & Hf' & Hl' & Hs').
        unfold mbind, M_bind, bind in Hrun. rewrite Hrun.
        exists c, w'. split; [reflexivity|].
        split; [now rewrite <- Hb|].
        rewrite Ha', Hf', Hl', Hs'. cbn. auto.
      + rewrite (loginHandler_resolved w0 e pw resp p' Hin Hset). step_monad.
        do 2 eexists. split; [reflexivity|]. split; [now left|].
        cbn. split; [exact Ha|]. split; [exact Hf|].
        right. exists (accessToken (user resp)). now rewrite Hl.
    - rewrite (loginHandler_rejected w0 e pw v p' Hin).
      destruct (catch_block_outcome (lit "Authentication error:") v
                  (signIn_returned w0 e pw p'))
        as (c & w' & Hrun & Hc & Hb' & Ha' & Hf' & Hl' & Hs').
      unfold mbind, M_bind, bind in Hrun. rewrite Hrun.
      exists c, w'. split; [reflexivity|].
      split; [now rewrite <- Hb|].
      rewrite Ha', Hf', Hl', Hs'. cbn. auto. }
  destruct mode.
  - now apply Hlogin.
  - unfold try_catch at 1, mbind at 1 2, M_bind at 1 2, bind at 1 2.
    destruct (provider_create e pw (idp w)) as [[[] | v] p1] eqn:Hnew.
    + rewrite (createUser_resolved w e pw p1 Hnew).
      destruct (Hlogin (created w e pw p1)) as (c & w' & Hrun & Hrest);
        try reflexivity.
      unfold try_catch at 1, mbind, M_bind, bind in Hrun.
      exists c, w'. split; [exact Hrun | exact Hrest].
    + unfold createUserEmailAndPass, call_provider. rewrite Hnew.
      destruct (catch_block_outcome (lit "Authentication error:") v
                  (created w e pw p1))
        as (c & w' & Hrun & Hc & Hb' & Ha' & Hf' & Hl' & Hs').
      unfold mbind, M_bind, bind in Hrun.
      exists c, w'. split; [exact Hrun|].
      split; [exact Hc|]. rewrite Ha', Hf', Hl', Hs'. cbn. auto.
Qed.

(** Every way [handleSubmit] can end: normally or, from its [catch]
    block, by the TypeError of a rejection with [undefined] or [null];
    with the form fields untouched and the validator's mapping stored; and
    either nothing written to [localStorage] and the store, or one token
    written to both, the status refreshed and the mode flag set. *)
Lemma handleSubmit_outcome r w :
  exists c w',
    handleSubmit r w = (c, w') /\
    (c = Normal tt \/ c = Throw (nullish_TypeError (browser w))) /\
    st_authData w' = st_authData w /\
    st_formErrors w' = validateForm_errors (isLogin r) (authData r) /\
    ((localStorage w' = localStorage w /\ store w' = store w) \/
     (exists T,
        localStorage w' = <["idToken" := T]> (localStorage w) /\
        store w' =
          authReducer
            (authReducer (authReducer (store w) (setIdToken (Some T)))
                         setLoginStatus)
            (setIsLogin true))).
Proof.
  destruct (decide (validateForm_errors (isLogin r) (authData r) = ∅))
    as [Hok | Hne].
  - rewrite handleSubmit_valid by exact Hok.
    exact (submit_branch_outcome (isLogin r) (email (authData r))
             (password (authData r)) (validated r w)).
  - rewrite handleSubmit_invalid by exact Hne.
    do 2 eexists. split; [reflexivity|]. split; [now left|].
    do 2 (split; [reflexivity|]).
    left. split; reflexivity.
Qed.

End SubmitMore.

Section SessionProperties.

Context {P : Type} `{IdentityProvider P}.

Implicit Types (r : Render) (w : World P) (d : FormFields).



(** A Google sign-in that resolves with a token the browser refuses to
    store: the error of [setItem] is caught and logged as "Google Sign-In
    Error:"; the token is neither persisted nor published. *)
Theorem loginWithGoogleHandler_storage_refused w res p' (err : Error) :
  provider_google (idp w) = (Normal res, p') ->
  setItem_refused (browser w) (localStorage w) "idToken" (token res) = Some err ->
  exists w',
    loginWithGoogleHandler w = (Normal tt, w') /\
    localStorage w' = localStorage w /\
    store w' = store w /\
    trace w' = trace w ++
      [ ProviderCall SignInGoogle;
        ConsoleError (lit "Google Sign-In Error:") (message err) ].
Proof.
  intros Hg Hno. unfold loginWithGoogleHandler, signInWithGoogle, call_provider.
  step_monad. rewrite Hg. step_monad. rewrite Hno.
  eexists. split; [reflexivity|].
  cbn. repeat split. now rewrite <- app_assoc.
Qed.

(** A sign-out rejected with [undefined] or [null]: the [catch] block
    fails on reading [message], so nothing is logged and [handleSignOut]
    ends by that TypeError; [localStorage] and the store are as before. *)
Theorem handleSignOut_nullish_rejection w p' :
  provider_signOut (idp w) = (Throw Nullish, p') ->
  exists w',
    handleSignOut w = (Throw (nullish_TypeError (browser w)), w') /\
    localStorage w' = localStorage w /\
    store w' = store w /\
    trace w' = trace w ++ [ProviderCall SignOut].
Proof.
  intros Hout. unfold handleSignOut, signOutUser, call_provider.
  step_monad. rewrite Hout. eexists. split; [reflexivity|].
  now repeat split.
Qed.

Lemma loginWithGoogleHandler_outcome w :
  exists c w',
    loginWithGoogleHandler w = (c, w') /\
    (c = Normal tt \/ c = Throw (nullish_TypeError (browser w))) /\
    st_authData w' = st_authData w /\
    st_formErrors w' = st_formErrors w /\
    ((localStorage w' = localStorage w /\ store w' = store w) \/
     (exists T,
        localStorage w' = <["idToken" := T]> (localStorage w) /\
        store w' =
          authReducer (authReducer (store w) (setIdToken (Some T)))
                      setLoginStatus)).
Proof.
  unfold loginWithGoogleHandler, signInWithGoogle, call_provider.
  step_monad. destruct (provider_google (idp w)) as [[res | [err | |]] p'];
    step_monad.
  - destruct (setItem_refused (browser w) (localStorage w) "idToken" (token res))
      as [err|]; step_monad.
    + do 2 eexists. split; [reflexivity|]. split; [now left|].
      do 2 (split; [reflexivity|]). left. split; reflexivity.
    + do 2 eexists. split; [reflexivity|]. split; [now left|].
      do 2 (split; [reflexivity|]). right. eexists. split; reflexivity.
  - do 2 eexists. split; [reflexivity|]. split; [now left|].
    do 2 (split; [reflexivity|]). left. split; reflexivity.
  - do 2 eexists. split; [reflexivity|]. split; [now right|].
    do 2 (split; [reflexivity|]). left. split; reflexivity.
  - do 2 eexists. split; [reflexivity|]. split; [now left|].
    do 2 (split; [reflexivity|]). left. split; reflexivity.
Qed.

Lemma handleSignOut_outcome w :
  exists c w',
    handleSignOut w = (c, w') /\
    (c = Normal tt \/ c = Throw (nullish_TypeError (browser w))) /\
    st_authData w' = st_authData w /\
    st_formErrors w' = st_formErrors w /\
    ((localStorage w' = localStorage w /\ store w' = store w) \/
     (localStorage w' = delete "idToken" (localStorage w) /\
      store w' =
        authReducer (authReducer (store w) (setIdToken None)) setLoginStatus)).
Proof.
  unfold handleSignOut, signOutUser, call_provider.
  step_monad. destruct (provider_signOut (idp w)) as [[[] | [err | |]] p'];
    step_monad.
  - do 2 eexists. split; [reflexivity|]. split; [now left|].
    do 2 (split; [reflexivity|]). right. split; reflexivity.
  - do 2 eexists. split; [reflexivity|]. split; [now left|].
    do 2 (split; [reflexivity|]). left. split; reflexivity.
  - do 2 eexists. split; [reflexivity|]. split; [now right|].
    do 2 (split; [reflexivity|]). left. split; reflexivity.
  - do 2 eexists. split; [reflexivity|]. split; [now left|].
    do 2 (split; [reflexivity|]). left. split; reflexivity.
Qed.



(** [handleChange] writes the value into the field of the input that
    changed and nothing else: the other two fields, the stored errors,
    [localStorage], the store and the trace of calls are as before. *)
Theorem handleChange_sets_field w target value :
  let w' := (handleChange (render w) target value w).2 in
  (handleChange (render w) target value w).1 = Normal tt /\
  field target (st_authData w') = value /\
  (forall other, other <> target ->
     field other (st_authData w') = field other (st_authData w)) /\
  st_formErrors w' = st_formErrors w /\
  localStorage w' = localStorage w /\
  store w' = store w /\
  trace w' = trace w.
Proof.
  cbn. split; [reflexivity|]. split; [now destruct target|].
  split; [|now repeat split].
  intros other Hne. destruct target, other; try reflexivity; contradiction.
Qed.

(** Two changes handled by the same render: the second starts again from
    the fields that render saw, so a change the first made to another
    field is lost. *)
Theorem handleChange_same_render_loses_update r w t1 v1 t2 v2 :
  t1 <> t2 ->
  let w1 := (handleChange r t1 v1 w).2 in
  let w2 := (handleChange r t2 v2 w1).2 in
  field t1 (st_authData w2) = field t1 (authData r) /\
  field t2 (st_authData w2) = v2.
Proof.
  intros Hne. cbn. split; [|now destruct t2].
  destruct t1, t2; try reflexivity; contradiction.
Qed.


Lemma run_op_token_consistent (op : Op) w :
  token_consistent w -> token_consistent (run_op op w).2.
Proof.
  unfold token_consistent. intros Hc.
  destruct op as [target value | | | |]; cbn [run_op].
  - exact Hc.
  - destruct (handleSubmit_outcome (render w) w)
      as (c & w' & Hrun & _ & _ & _ & Hcase).
    rewrite Hrun. cbn [snd].
    destruct Hcase as [[-> ->] | (T & -> & ->)]; [exact Hc|].
    apply lookup_insert_eq.
  - destruct (loginWithGoogleHandler_outcome w)
      as (c & w' & Hrun & _ & _ & _ & Hcase).
    rewrite Hrun. cbn [snd].
    destruct Hcase as [[-> ->] | (T & -> & ->)]; [exact Hc|].
    apply lookup_insert_eq.
  - exact Hc.
  - destruct (handleSignOut_outcome w)
      as (c & w' & Hrun & _ & _ & _ & Hcase).
    rewrite Hrun. cbn [snd].
    destruct Hcase as [[-> ->] | [-> ->]]; [exact Hc|].
    apply lookup_delete_eq.
Qed.

(** The persisted token and the store's token stay in step: if
    [localStorage] holds under "idToken" what the store holds, it still
    does after any sequence of calls on the handlers. *)
Theorem run_ops_token_consistent (ops : list Op) : forall w,
  token_consistent w -> token_consistent (run_ops ops w).
Proof.
  induction ops as [|op ops IH]; intros w Hc; [exact Hc|].
  cbn [run_ops]. apply IH. now apply run_op_token_consistent.
Qed.

Lemma run_op_fields (op : Op) w :
  (forall target value, op <> OpChange target value) ->
  st_authData (run_op op w).2 = st_authData w.
Proof.
  intros Hop. destruct op as [target value | | | |]; cbn [run_op].
  - now destruct (Hop target value).
  - now destruct (handleSubmit_outcome (render w) w)
      as (c & w' & -> & _ & Ha & _).
  - now destruct (loginWithGoogleHandler_outcome w)
      as (c & w' & -> & _ & Ha & _).
  - reflexivity.
  - now destruct (handleSignOut_outcome w) as (c & w' & -> & _ & Ha & _).
Qed.

(** The form is never reset: a sequence of calls none of which is an
    input change leaves the three fields, password included, as they
    were. *)
Theorem run_ops_keep_fields (ops : list Op) : forall w,
  Forall (fun op => forall target value, op <> OpChange target value) ops ->
  st_authData (run_ops ops w) = st_authData w.
Proof.
  induction ops as [|op ops IH]; intros w Hops; [reflexivity|].
  apply Forall_cons in Hops as [Hop Hops].
  cbn [run_ops]. rewrite IH by exact Hops. now apply run_op_fields.
Qed.

End SessionProperties.

(** ** What the form shows *)

Section Rendering.

Context {P : Type} `{IdentityProvider P}.

Implicit Types (r : Render) (w : World P) (d : FormFields).

(** Every message of the validator is a non-empty string, so each entry
    of its mapping is rendered as a paragraph. *)
Lemma error_paragraph_validated (mode : bool) d (k : string) :
  error_paragraph (validateForm_errors mode d) k = validateForm_errors mode d !! k.
Proof.
  unfold error_paragraph.
  destruct (validateForm_errors mode d !! k) as [msg|] eqn:Hk; [|reflexivity].
  enough (truthy msg = true) as -> by reflexivity.
  unfold validateForm_errors in Hk.
  repeat case_match;
    repeat (rewrite lookup_insert in Hk; case_decide;
            [injection Hk as <-; reflexivity|]);
    rewrite lookup_empty in Hk; discriminate Hk.
Qed.

(** The form rendered after a submission, whatever its outcome: under the
    email and password inputs are exactly the validator's entries for
    them, and the name block, present while the store is still in signup
    mode, carries the validator's name entry.  The inputs keep their
    values. *)
Theorem Auth_after_submit r w :
  let w' := (handleSubmit r w).2 in
  let errors := validateForm_errors (isLogin r) (authData r) in
  email_block (Auth w') = (email (st_authData w), errors !! "email") /\
  password_block (Auth w') = (password (st_authData w), errors !! "password") /\
  name_block (Auth w') =
    if auth_isLogin (store w') then None
    else Some (name (st_authData w), errors !! "name").
Proof.
  destruct (handleSubmit_outcome r w) as (c & w' & Hrun & _ & Ha & Hf & _).
  rewrite Hrun. cbn [snd]. unfold Auth.
  cbn [email_block password_block name_block].
  rewrite Ha, Hf, !error_paragraph_validated.
  now destruct (auth_isLogin (store w')).
Qed.

(** The toggle button changes the mode and nothing of the errors: the
    email and password blocks are rendered as before, stale messages
    included, and on the way to signup mode the name block comes up with
    whatever name error was stored last. *)
Theorem Auth_after_toggle w :
  let w' := (toggleAuthMode (render w) w).2 in
  email_block (Auth w') = email_block (Auth w) /\
  password_block (Auth w') = password_block (Auth w) /\
  name_block (Auth w') =
    (if auth_isLogin (store w)
     then Some (name (st_authData w), error_paragraph (st_formErrors w) "name")
     else None) /\
  heading (Auth w') = if auth_isLogin (store w) then lit "Signup" else lit "Login".
Proof.
  cbn. now destruct (auth_isLogin (store w)).
Qed.

(** Typing a value into the email input and submitting: the form rendered
    next has no error under the email input exactly when the typed value
    contains a match of the pattern. *)
Theorem typed_email_is_validated w (value : jsstring) :
  let w' := run_ops [OpChange input_email value; OpSubmit] w in
  (email_block (Auth w')).2 = None <-> contains_match EMAIL_RE value.
Proof.
  cbn [run_ops run_op].
  destruct (handleSubmit_outcome
              (render (handleChange (render w) input_email value w).2)
              (handleChange (render w) input_email value w).2)
    as (c & w' & Hrun & _ & _ & Hf & _).
  rewrite Hrun. cbn [snd]. unfold Auth. cbn [email_block snd].
  rewrite Hf, error_paragraph_validated, errors_email, <- test_spec.
  cbn [handleChange setAuthData render snd st_authData authData email].
  destruct value as [|u value]; [now split|]. cbn [truthy negb].
  now destruct (test EMAIL_RE (u :: value)).
Qed.

End Rendering.

(* ===================================================================== *)
(** * More runs on concrete inputs *)
(* ===================================================================== *)

Section MoreRuns.

Import Demo Scenarios.

Lemma validateForm_password_messages_witness :
  let w := fresh true blank nobody in
  st_formErrors (validateForm (mkRender true blank) w).2 !! "password"
    = Some (lit "Password is required.") /\
  st_formErrors (validateForm (mkRender true bad_form) w).2 !! "password"
    = Some (lit "Password must be at least 6 characters.").
Proof.
  intros w. split.
  - apply (validateForm_password_messages (mkRender true blank) w). reflexivity.
  - apply (validateForm_password_messages (mkRender true bad_form) w).
    + discriminate.
    + reflexivity.
Defined.

Lemma validateForm_name_message_witness :
  let w := fresh false blank nobody in
  st_formErrors (validateForm (mkRender false bad_form) w).2 !! "name"
    = Some (lit "Full name is required for signup.") /\
  st_formErrors (validateForm (mkRender false ada) w).2 !! "name" = None.
Proof.
  intros w. split.
  - apply (validateForm_name_message (mkRender false bad_form) w).
    split; reflexivity.
  - apply (validateForm_name_message (mkRender false ada) w).
    right. discriminate.
Defined.

Lemma EMAIL_RE_test_needs_witness :
  0x40 ∈ lit "a@b.c" /\ 0x2E ∈ lit "a@b.c" /\ 5 <= strlen (lit "a@b.c").
Proof. apply (EMAIL_RE_test_needs (lit "a@b.c")). reflexivity. Defined.

Lemma test_extends_witness :
  test EMAIL_RE (lit "mail me at " ++ lit "a@b.c" ++ lit " please") = true.
Proof.
  apply (test_extends EMAIL_RE (lit "a@b.c") (lit "mail me at ") (lit " please")).
  reflexivity.
Defined.





(** A signup that goes through. *)
Lemma handleSubmit_success_calls_witness :
  exists w',
    handleSubmit (mkRender false ada) (fresh false ada nobody) = (Normal tt, w') /\
    localStorage w' !! "idToken" = Some (lit "token:ada@example.org") /\
    idToken (store w') = Some (lit "token:ada@example.org") /\
    trace w' =
      [ PreventDefault;
        ProviderCall (CreateEmailAndPass (lit "ada@example.org") (lit "abcdef"));
        ProviderCall (SignInEmailAndPass (lit "ada@example.org") (lit "abcdef"));
        Dispatch (setIdToken (Some (lit "token:ada@example.org")));
        Dispatch setLoginStatus;
        Navigate (lit "/home");
        Dispatch (setIsLogin true) ].
Proof.
  apply (handleSubmit_success_calls (mkRender false ada) (fresh false ada nobody)
           (mkUserCredential (mkUser (lit "token:ada@example.org")))).
  - reflexivity.
  - exists ada_registered, ada_registered. split; reflexivity.
  - vm_compute. reflexivity.
Defined.

(** Signing in and submitting in a browser with no room for the token. *)
Lemma loginHandler_storage_refused_witness :
  exists w',
    loginHandler (lit "ada@example.org") (lit "abcdef")
      (in_browser cramped (fresh true ada ada_registered))
      = (Throw (mkError (lit "The quota has been exceeded.")), w') /\
    localStorage w' = ∅ /\
    store w' = mkAuthSlice true None false /\
    trace w' =
      [ProviderCall (SignInEmailAndPass (lit "ada@example.org") (lit "abcdef"))].
Proof.
  apply (loginHandler_storage_refused
           (in_browser cramped (fresh true ada ada_registered))
           (lit "ada@example.org") (lit "abcdef")
           (mkUserCredential (mkUser (lit "token:ada@example.org")))
           ada_registered (mkError (lit "The quota has been exceeded."))).
  - reflexivity.
  - vm_compute. reflexivity.
Defined.

Lemma handleSubmit_storage_refused_witness :
  exists w',
    handleSubmit (mkRender true ada)
      (in_browser cramped (fresh true ada ada_registered)) = (Normal tt, w') /\
    localStorage w' = ∅ /\
    store w' = mkAuthSlice true None false /\
    trace w' =
      [ PreventDefault;
        ProviderCall (SignInEmailAndPass (lit "ada@example.org") (lit "abcdef"));
        ConsoleError (lit "Authentication error:") (lit "The quota has been exceeded.") ].
Proof.
  apply (handleSubmit_storage_refused (mkRender true ada)
           (in_browser cramped (fresh true ada ada_registered))
           (mkUserCredential (mkUser (lit "token:ada@example.org")))
           ada_registered (mkError (lit "The quota has been exceeded."))).
  - reflexivity.
  - reflexivity.
  - reflexivity.
  - vm_compute. reflexivity.
Defined.

Lemma loginWithGoogleHandler_storage_refused_witness :
  exists w',
    loginWithGoogleHandler (in_browser cramped (fresh true blank nobody))
      = (Normal tt, w') /\
    localStorage w' = ∅ /\
    store w' = mkAuthSlice true None false /\
    trace w' =
      [ ProviderCall SignInGoogle;
        ConsoleError (lit "Google Sign-In Error:") (lit "The quota has been exceeded.") ].
Proof.
  apply (loginWithGoogleHandler_storage_refused
           (in_browser cramped (fresh true blank nobody))
           (mkGoogleResult (lit "google-token")) nobody
           (mkError (lit "The quota has been exceeded."))).
  - reflexivity.
  - vm_compute. reflexivity.
Defined.

(** Signing out when the provider rejects with [undefined]. *)
Lemma handleSignOut_nullish_rejection_witness :
  exists w',
    handleSignOut signed_in_silent
      = (Throw (mkError (lit "Cannot read properties of undefined (reading 'message')")),
         w') /\
    localStorage w' = {["idToken" := lit "T123"]} /\
    store w' = mkAuthSlice true (Some (lit "T123")) true /\
    trace w' = [ProviderCall SignOut].
Proof.
  apply (handleSignOut_nullish_rejection signed_in_silent tt). reflexivity.
Defined.

Lemma handleSubmit_ignores_name_witness :
  handleSubmit (mkRender false ada) (fresh false ada nobody) =
  handleSubmit (mkRender false ada_renamed) (fresh false ada nobody).
Proof.
  apply (handleSubmit_ignores_name false ada ada_renamed).
  - reflexivity.
  - reflexivity.
  - right. split; discriminate.
Defined.




(** An email change and a password change handled by one render. *)
Lemma handleChange_same_render_loses_update_witness :
  let r := mkRender true blank in
  let w1 := (handleChange r input_email (lit "ada@example.org")
               (fresh true blank nobody)).2 in
  let w2 := (handleChange r input_password (lit "abcdef") w1).2 in
  field input_email (st_authData w2) = [] /\
  field input_password (st_authData w2) = lit "abcdef".
Proof.
  apply (handleChange_same_render_loses_update (mkRender true blank)
           (fresh true blank nobody) input_email (lit "ada@example.org")
           input_password (lit "abcdef")).
  discriminate.
Defined.

(** A signup, a toggle, a sign-out and a Google sign-in in a row. *)
Lemma run_ops_token_consistent_witness :
  token_consistent
    (run_ops [OpSubmit; OpToggle; OpSignOut; OpGoogle] (fresh false ada nobody)).
Proof.
  apply (run_ops_token_consistent [OpSubmit; OpToggle; OpSignOut; OpGoogle]
           (fresh false ada nobody)).
  reflexivity.
Defined.

Lemma run_ops_keep_fields_witness :
  st_authData (run_ops [OpSubmit; OpToggle; OpSignOut] (fresh true ada ada_registered))
  = ada.
Proof.
  apply (run_ops_keep_fields [OpSubmit; OpToggle; OpSignOut]
           (fresh true ada ada_registered)).
  repeat constructor; discriminate.
Defined.

End MoreRuns.
